(** * Attestation tallies of the crypto scam tracker

    A shallow embedding of the two React hooks that aggregate signed
    attestations:

    - [SiteRatings]  : [SiteRatingsProvider] with [loadSiteRatings] and
      [rateSite] (site-safety pipeline);
    - [CommentVotes] : [useCommentVotes] with [getVotesForComments] and
      [voteOnComment] (comment-vote pipeline).

    Asynchronous functions are run to completion one after the other, as a
    state-and-exception monad over a [World] that holds the hook's React
    state, the console, the toasts that were shown and the trace of calls made
    to the attestation service.

    Conventions of the embedding:
    - strings are [String.string]; [toLowerCase] folds the ASCII letters, the
      only letters an address or a host name contains;
    - a JS object used as a dictionary is an association list in insertion
      order ([JsObject]); its keys here are folded addresses and comment
      identifiers, never names inherited from [Object.prototype];
    - [attestTimestamp] is the time value of the [Date] it parses to, an
      integer number of milliseconds;
    - counters are natural numbers. *)

From Stdlib Require Import String Ascii List ZArith Bool Lia Arith Permutation.
Import ListNotations.
Open Scope string_scope.
Open Scope list_scope.

Set Implicit Arguments.

(* ================================================================== *)
(** ** Strings *)

Definition lower_ascii (c : ascii) : ascii :=
  let n := nat_of_ascii c in
  if (65 <=? n)%nat && (n <=? 90)%nat then ascii_of_nat (n + 32) else c.

(** [String.prototype.toLowerCase], on ASCII text. *)
Fixpoint toLowerCase (s : string) : string :=
  match s with
  | EmptyString => EmptyString
  | String c rest => String (lower_ascii c) (toLowerCase rest)
  end.

(** Truthiness of a string: every string but the empty one. *)
Definition truthy (s : string) : bool :=
  match s with
  | EmptyString => false
  | String _ _ => true
  end.

(** Truthiness of a value that is a string, [null] or [undefined]. *)
Definition truthy_opt (o : option string) : bool :=
  match o with
  | Some s => truthy s
  | None => false
  end.

(* ================================================================== *)
(** ** JS objects used as dictionaries, and [Set] *)

Section JsObject.
Variable V : Type.

Definition JsObject := list (string * V).

(** [o[k]]: the value held under [k], if any. *)
Fixpoint obj_get (k : string) (o : JsObject) : option V :=
  match o with
  | [] => None
  | (k', v) :: rest => if String.eqb k k' then Some v else obj_get k rest
  end.

(** [o[k] = v]: overwrites in place, or appends a new property. *)
Fixpoint obj_set (k : string) (v : V) (o : JsObject) : JsObject :=
  match o with
  | [] => [(k, v)]
  | (k', v') :: rest =>
      if String.eqb k k' then (k, v) :: rest else (k', v') :: obj_set k v rest
  end.

Definition obj_keys (o : JsObject) : list string := map fst o.

(** [Object.values(o)]. *)
Definition obj_values (o : JsObject) : list V := map snd o.
End JsObject.

Definition set_has (x : string) (s : list string) : bool :=
  existsb (String.eqb x) s.

(** [set.add(x)]: a new member goes last, a known one changes nothing. *)
Definition set_add (x : string) (s : list string) : list string :=
  if set_has x s then s else s ++ [x].

(** [new Set(xs)], its members in insertion order. *)
Definition Set_of (xs : list string) : list string :=
  fold_left (fun s x => set_add x s) xs [].

(* ================================================================== *)
(** ** Latest record of a signer *)

Section Latest.
Variable A : Type.
Variable signer_of : A -> string.
Variable time_of : A -> Z.

Definition latest_step (k : string) (held : option A) (a : A) : option A :=
  if String.eqb (toLowerCase (signer_of a)) k
  then match held with
       | None => Some a
       | Some h => if (time_of h <? time_of a)%Z then Some a else held
       end
  else held.

(** Modelled from the spec: the service operation
    [latestRecordForSigner(schemaId, subjectKey, signer)] belongs to the
    [useAttestations] hook, which is not among the sources. The spec makes
    it "equivalent to resolving a single signer's latest record": signers
    are compared case-folded, a held record is replaced by a strictly newer
    one, and the first record met is kept on equal timestamps. [k] is the
    folded signer. *)
Definition latestRecordForSigner (k : string) (records : list A) : option A :=
  fold_left (latest_step k) records None.

(** [r] is the first record of maximal timestamp among the records of the
    signer [k] in [records]. *)
Definition is_latest (k : string) (records : list A) (r : A) : Prop :=
  exists before after,
    records = before ++ r :: after /\
    toLowerCase (signer_of r) = k /\
    (forall x, In x before -> toLowerCase (signer_of x) = k ->
               (time_of x < time_of r)%Z) /\
    (forall x, In x after -> toLowerCase (signer_of x) = k ->
               (time_of x <= time_of r)%Z).

(** The signer [k] has a record in [records]. *)
Definition has_record (k : string) (records : list A) : Prop :=
  exists x, In x records /\ toLowerCase (signer_of x) = k.

(** Number of distinct case-folded signers of [records]. *)
Definition distinct_signers (records : list A) : nat :=
  length (nodup string_dec (map (fun a => toLowerCase (signer_of a)) records)).
End Latest.

(* ================================================================== *)
(** ** Runtime: errors, console, toasts, the attestation service *)

(** A thrown [Error], by its [message]. *)
Record Error := { message : string }.

Inductive ConsoleLine :=
| console_log (text : string)
| console_error (text : string) (err : Error).

Record Toast := {
  title : string;
  description : string;
  status : string;
  duration : nat;
  isClosable : bool
}.

Section Runtime.
(** [A]: attestation records; [P]: the data of a new attestation;
    [R]: the React state of the hook. *)
Variables A P R : Type.

Inductive Call :=
| CallGetAttestations (schemaId indexingValue : string)
| CallGetLatestAttestationForUser (schemaId indexingValue user : string)
| CallCreateAttestation (schemaId indexingValue : string) (data : P).

(** One call that reached the attestation service, and whether it
    succeeded. *)
Record Event := { ev_call : Call; ev_ok : bool }.

(** The [useAttestations] hook is not among the sources: it is a parameter.
    Each operation answers from the calls made so far, with a value or with
    the error its promise rejects with. *)
Record Service := {
  svc_getAttestations :
    list Event -> string -> string -> Error + list A;
  svc_getLatestAttestationForUser :
    list Event -> string -> string -> string -> Error + option A;
  svc_createAttestation :
    list Event -> string -> string -> P -> Error + unit
}.

Record World := {
  hook : R;
  console : list ConsoleLine;
  toasts : list Toast;
  io : list Event
}.

Inductive Outcome (T : Type) :=
| Returned (v : T)
| Thrown (e : Error).

Definition M (T : Type) := World -> Outcome T * World.

Definition ret {T} (v : T) : M T := fun w => (Returned v, w).

Definition throw {T} (e : Error) : M T := fun w => (Thrown T e, w).

Definition bind {T U} (m : M T) (f : T -> M U) : M U :=
  fun w =>
    match m w with
    | (Returned v, w') => f v w'
    | (Thrown _ e, w') => (Thrown U e, w')
    end.

(** [try { body } catch (e) { handler }]. *)
Definition try_catch {T} (body : M T) (handler : Error -> M T) : M T :=
  fun w =>
    match body w with
    | (Returned v, w') => (Returned v, w')
    | (Thrown _ e, w') => handler e w'
    end.

(** [try { body } finally { cleanup }]: the cleanup always runs; the
    body's completion stands unless the cleanup throws. *)
Definition try_finally {T} (body : M T) (cleanup : M unit) : M T :=
  fun w =>
    match body w with
    | (r, w') =>
        match cleanup w' with
        | (Returned _, w'') => (r, w'')
        | (Thrown _ e, w'') => (Thrown T e, w'')
        end
    end.

Definition get_hook : M R := fun w => (Returned (hook w), w).

(** A state setter of the hook. *)
Definition set_hook (f : R -> R) : M unit := fun w =>
  (Returned tt,
   {| hook := f (hook w); console := console w;
      toasts := toasts w; io := io w |}).

Definition console_write (line : ConsoleLine) : M unit := fun w =>
  (Returned tt,
   {| hook := hook w; console := console w ++ [line];
      toasts := toasts w; io := io w |}).

Definition toast (t : Toast) : M unit := fun w =>
  (Returned tt,
   {| hook := hook w; console := console w;
      toasts := toasts w ++ [t]; io := io w |}).

Definition record_call (c : Call) (ok : bool) (w : World) : World :=
  {| hook := hook w; console := console w; toasts := toasts w;
     io := io w ++ [{| ev_call := c; ev_ok := ok |}] |}.

Definition answer {T} (c : Call) (r : Error + T) : M T := fun w =>
  match r with
  | inr v => (Returned v, record_call c true w)
  | inl e => (Thrown T e, record_call c false w)
  end.

Variable svc : Service.

Definition getAttestations (schemaId indexingValue : string) : M (list A) :=
  fun w =>
    answer (CallGetAttestations schemaId indexingValue)
           (svc_getAttestations svc (io w) schemaId indexingValue) w.

Definition getLatestAttestationForUser (schemaId indexingValue user : string)
  : M (option A) :=
  fun w =>
    answer (CallGetLatestAttestationForUser schemaId indexingValue user)
           (svc_getLatestAttestationForUser svc (io w)
              schemaId indexingValue user) w.

Definition createAttestation (schemaId indexingValue : string) (data : P)
  : M unit :=
  fun w =>
    answer (CallCreateAttestation schemaId indexingValue data)
           (svc_createAttestation svc (io w) schemaId indexingValue data) w.
End Runtime.

Arguments CallGetAttestations {P} schemaId indexingValue.
Arguments CallGetLatestAttestationForUser {P} schemaId indexingValue user.
Arguments Returned {T} v.
Arguments Thrown {T} e.
Arguments ret {P R T} v.
Arguments throw {P R T} e.
Arguments bind {P R T U} m f.
Arguments try_catch {P R T} body handler.
Arguments try_finally {P R T} body cleanup.
Arguments get_hook {P R}.
Arguments set_hook {P R} f.
Arguments console_write {P R} line.
Arguments toast {P R} t.

Notation "x <- m ;; k" := (bind m (fun x => k))
  (at level 61, m at next level, right associativity).
Notation "m ;;; k" := (bind m (fun _ => k))
  (at level 61, right associativity).

(** The completion of an asynchronous call that is not one of the
    attestation service: its value, or the error it rejects with. *)
Definition of_result {P R T : Type} (r : Error + T) : M P R T := fun w =>
  match r with
  | inr v => (Returned v, w)
  | inl e => (Thrown e, w)
  end.

(** A call of the trace failed. *)
Definition failed_call {P : Type} (ev : Event P) : Prop := ev_ok ev = false.

(** The value of a configuration entry or address that passed its
    truthiness guard. *)
Definition str_of (o : option string) : string :=
  match o with
  | Some s => s
  | None => ""
  end.

Section ReferenceService.
Variables A P : Type.
Variable signer_of : A -> string.
Variable time_of : A -> Z.

(** What the service holds for a schema and an indexing value, after the
    calls made so far. *)
Variable store : list (Event P) -> string -> string -> list A.

(** [down n]: the call number [n] fails. *)
Variable down : nat -> bool.

Definition networkError : Error := {| message := "Network Error" |}.

(** Modelled from the spec: the attestation service behind the
    [useAttestations] hook, which is not among the sources.
    [listRecords] returns every record issued for the subject under the
    schema, [latestRecordForSigner] resolves one signer's latest record,
    [submitRecord] issues a record; any call may fail. *)
Definition referenceService : Service A P := {|
  svc_getAttestations tr schemaId indexingValue :=
    if down (length tr) then inl networkError
    else inr (store tr schemaId indexingValue);
  svc_getLatestAttestationForUser tr schemaId indexingValue user :=
    if down (length tr) then inl networkError
    else inr (latestRecordForSigner signer_of time_of (toLowerCase user)
                (store tr schemaId indexingValue));
  svc_createAttestation tr schemaId indexingValue data :=
    if down (length tr) then inl networkError else inr tt
|}.
End ReferenceService.

(* ================================================================== *)
(** ** [useCommentVotes] *)

Module CommentVotes.

Record VoteData := { commentId : string; vote : Z }.

Record Attestation := {
  attester : string;
  attestTimestamp : Z;
  decodedData : VoteData
}.

Record VoteEntry := {
  upvotes : nat;
  downvotes : nat;
  userVote : option Z
}.

Record HookState := { loading : bool; error : option string }.

Definition initial : HookState := {| loading := false; error := None |}.

Record Env := {
  VOTE_SCHEMA_ID : option string;
  ethAddress : option string
}.

Definition VM := M VoteData HookState.

Definition setLoading (b : bool) : VM unit :=
  set_hook (fun h => {| loading := b; error := error h |}).

Definition setError (e : option string) : VM unit :=
  set_hook (fun h => {| loading := loading h; error := e |}).

(** The callback of [voteAttestations.reduce]. *)
Definition reduce_step (acc : JsObject Attestation) (attestation : Attestation)
  : JsObject Attestation :=
  let attester := toLowerCase (attester attestation) in
  match obj_get attester acc with
  | None => obj_set attester attestation acc
  | Some held =>
      if (attestTimestamp held <? attestTimestamp attestation)%Z
      then obj_set attester attestation acc
      else acc
  end.

Definition userVotes (voteAttestations : list Attestation)
  : JsObject Attestation :=
  fold_left reduce_step voteAttestations [].

(** [attestation.attester.toLowerCase() === ethAddress?.toLowerCase()]. *)
Definition is_current_user (env : Env) (attestation : Attestation) : bool :=
  match ethAddress env with
  | Some address =>
      String.eqb (toLowerCase (attester attestation)) (toLowerCase address)
  | None => false
  end.

(** The callback of [Object.values(userVotes).forEach]. *)
Definition count_step (env : Env) (entry : VoteEntry)
           (attestation : Attestation) : VoteEntry :=
  let voteValue := vote (decodedData attestation) in
  {| upvotes :=
       if (voteValue =? 1)%Z then S (upvotes entry) else upvotes entry;
     downvotes :=
       if (voteValue =? 1)%Z then downvotes entry
       else if (voteValue =? -1)%Z then S (downvotes entry)
            else downvotes entry;
     userVote :=
       if is_current_user env attestation then Some voteValue
       else userVote entry |}.

(** The entry of one comment, from the attestations fetched for it. *)
Definition countVotes (env : Env) (voteAttestations : list Attestation)
  : VoteEntry :=
  fold_left (count_step env) (obj_values (userVotes voteAttestations))
            {| upvotes := 0; downvotes := 0; userVote := None |}.

Section Hook.
Variable env : Env.
Variable svc : Service Attestation VoteData.

(** [for (const commentId of commentIds)]. *)
Fixpoint forComments (schemaId : string) (commentIds : list string)
         (voteMap : JsObject VoteEntry) : VM (JsObject VoteEntry) :=
  match commentIds with
  | [] => ret voteMap
  | commentId :: rest =>
      voteAttestations <- getAttestations svc schemaId commentId ;;
      forComments schemaId rest
        (obj_set commentId (countVotes env voteAttestations) voteMap)
  end.

Definition getVotesForComments (commentIds : list string)
  : VM (JsObject VoteEntry) :=
  if negb (truthy_opt (VOTE_SCHEMA_ID env)) then
    console_write (console_log "VOTE_SCHEMA_ID is not defined") ;;;
    ret []
  else
    setLoading true ;;;
    setError None ;;;
    try_finally
      (try_catch
         (forComments (str_of (VOTE_SCHEMA_ID env)) commentIds [])
         (fun err =>
            console_write (console_error "Error fetching votes:" err) ;;;
            setError (Some "Failed to fetch votes") ;;;
            ret []))
      (setLoading false).

Definition voteOnComment (commentId : string) (isUpvote : bool)
  : VM unit :=
  if negb (truthy_opt (VOTE_SCHEMA_ID env)) || negb (truthy commentId)
     || negb (truthy_opt (ethAddress env))
  then
    toast {| title := "Error";
             description := "Cannot vote: missing data";
             status := "error"; duration := 3000; isClosable := true |}
  else
    try_catch
      (createAttestation svc (str_of (VOTE_SCHEMA_ID env)) commentId
         {| commentId := commentId;
            vote := if isUpvote then 1%Z else (-1)%Z |} ;;;
       toast {| title := "Success";
                description := "Vote recorded successfully!";
                status := "success"; duration := 3000;
                isClosable := true |})
      (fun error =>
         console_write (console_error "Error voting on comment:" error) ;;;
         toast {| title := "Error";
                  description := "Failed to vote: " ++ message error;
                  status := "error"; duration := 3000;
                  isClosable := true |}).
End Hook.

(** *** Vocabulary of the properties *)

Section Vocabulary.
Variable env : Env.
Variable svc : Service Attestation VoteData.

Abbreviation W := (World VoteData HookState).

(** The folded signer of a vote attestation. *)
Definition key_of (a : Attestation) : string := toLowerCase (attester a).

(** An object whose every property is held under the folded signer of its
    value. *)
Definition keyed (o : JsObject Attestation) : Prop :=
  forall k v, In (k, v) o -> k = key_of v.

(** A vote attestation carries an upvote or a downvote. *)
Definition is_vote (a : Attestation) : Prop :=
  vote (decodedData a) = 1%Z \/ vote (decodedData a) = (-1)%Z.

(** The service answers every fetch for the comments [ids] with the
    records [recs]. *)
Definition serves (schemaId : string) (recs : string -> list Attestation)
           (ids : list string) : Prop :=
  forall tr c, In c ids -> svc_getAttestations svc tr schemaId c = inr (recs c).

(** The vote map after the loop, from the records of each comment. *)
Definition voteMap_of (recs : string -> list Attestation)
           (ids : list string) (voteMap : JsObject VoteEntry) :=
  fold_left (fun vm c => obj_set c (countVotes env (recs c)) vm) ids voteMap.

(** The world in which the loop of [getVotesForComments] starts. *)
Definition loading_world (w : W) : W :=
  {| hook := {| loading := true; error := None |};
     console := console w; toasts := toasts w; io := io w |}.

(** The toast of a refused or failed vote. *)
Definition vote_error_toast (text : string) : Toast :=
  {| title := "Error"; description := text; status := "error";
     duration := 3000; isClosable := true |}.

(** Something [voteOnComment] needs is missing. *)
Definition vote_refused (commentId : string) : bool :=
  negb (truthy_opt (VOTE_SCHEMA_ID env)) || negb (truthy commentId)
  || negb (truthy_opt (ethAddress env)).

(** The record [voteOnComment] asks the service to issue. *)
Definition vote_call (commentId : string) (isUpvote : bool) : Call VoteData :=
  CallCreateAttestation (str_of (VOTE_SCHEMA_ID env)) commentId
    {| commentId := commentId; vote := if isUpvote then 1%Z else (-1)%Z |}.

End Vocabulary.

(** *** Vocabulary of the further properties *)


(** A fetch of the vote attestations of one of the comments [ids]. *)
Definition is_fetch_of (schemaId : string) (ids : list string)
           (ev : Event VoteData) : Prop :=
  exists c, In c ids /\ ev_call ev = CallGetAttestations schemaId c.

(** No signer has two different records of one timestamp. *)
Definition distinct_times (l : list Attestation) : Prop :=
  forall x y, In x l -> In y l -> key_of x = key_of y ->
              attestTimestamp x = attestTimestamp y -> x = y.

(** The toast of a recorded vote. *)
Definition vote_success_toast : Toast :=
  {| title := "Success"; description := "Vote recorded successfully!";
     status := "success"; duration := 3000; isClosable := true |}.

End CommentVotes.

(* ================================================================== *)
(** ** [SiteRatingsProvider] *)

Module SiteRatings.

Record RatingData := { url : string; isSafe : bool }.

Record Attestation := {
  signer : string;
  attestTimestamp : Z;
  decodedData : RatingData
}.

Record Ratings := {
  safeCount : nat;
  unsafeCount : nat;
  totalRatings : nat
}.

Record HookState := {
  currentUrl : string;
  isValidUrl : bool;
  siteRatings : option Ratings;
  userRating : option bool;
  loading : bool
}.

Definition initial : HookState :=
  {| currentUrl := ""; isValidUrl := false; siteRatings := None;
     userRating := None; loading := true |}.

Record UserData := { email : option string }.

Record Env := {
  SAFETY_RATING_SCHEMA_ID : option string;
  ethAddress : option string;
  userData : option UserData
}.

Definition SM := M RatingData HookState.

Definition setSiteRatings (r : option Ratings) : SM unit :=
  set_hook (fun h =>
    {| currentUrl := currentUrl h; isValidUrl := isValidUrl h;
       siteRatings := r; userRating := userRating h;
       loading := loading h |}).

Definition setUserRating (r : option bool) : SM unit :=
  set_hook (fun h =>
    {| currentUrl := currentUrl h; isValidUrl := isValidUrl h;
       siteRatings := siteRatings h; userRating := r;
       loading := loading h |}).

Definition setLoading (b : bool) : SM unit :=
  set_hook (fun h =>
    {| currentUrl := currentUrl h; isValidUrl := isValidUrl h;
       siteRatings := siteRatings h; userRating := userRating h;
       loading := b |}).

(** [userData?.email]. *)
Definition email_of (u : option UserData) : option string :=
  match u with
  | Some d => email d
  | None => None
  end.

Section Provider.
Variable env : Env.
Variable svc : Service Attestation RatingData.

(** [for (const user of uniqueUsers)], with the two counters. *)
Fixpoint countLatest (schemaId key : string) (uniqueUsers : list string)
         (safeCount unsafeCount : nat) : SM (nat * nat) :=
  match uniqueUsers with
  | [] => ret (safeCount, unsafeCount)
  | user :: rest =>
      latestAttestation <-
        getLatestAttestationForUser svc schemaId key user ;;
      match latestAttestation with
      | Some a =>
          if isSafe (decodedData a)
          then countLatest schemaId key rest (S safeCount) unsafeCount
          else countLatest schemaId key rest safeCount (S unsafeCount)
      | None => countLatest schemaId key rest safeCount unsafeCount
      end
  end.

(** The body of the [try] block of [loadSiteRatings]. *)
Definition loadSiteRatings_body (schemaId url : string) : SM unit :=
  attestations <- getAttestations svc schemaId (toLowerCase url) ;;
  let uniqueUsers := Set_of (map signer attestations) in
  counts <- countLatest schemaId (toLowerCase url) uniqueUsers 0 0 ;;
  setSiteRatings
    (Some {| safeCount := fst counts; unsafeCount := snd counts;
             totalRatings := fst counts + snd counts |}) ;;;
  if truthy_opt (ethAddress env) then
    userAttestation <-
      getLatestAttestationForUser svc schemaId (toLowerCase url)
        (str_of (ethAddress env)) ;;
    match userAttestation with
    | Some a => setUserRating (Some (isSafe (decodedData a)))
    | None => setUserRating None
    end
  else ret tt.

Definition loadSiteRatings (url : string) : SM unit :=
  if negb (truthy_opt (SAFETY_RATING_SCHEMA_ID env)) || negb (truthy url)
  then ret tt
  else
    setLoading true ;;;
    try_finally
      (try_catch
         (loadSiteRatings_body (str_of (SAFETY_RATING_SCHEMA_ID env)) url)
         (fun error =>
            console_write
              (console_error "Error loading site ratings:" error)))
      (setLoading false).

Definition rateSite (isSafe : bool) : SM unit :=
  h <- get_hook ;;
  let currentUrl := currentUrl h in
  if negb (truthy_opt (SAFETY_RATING_SCHEMA_ID env))
     || negb (truthy currentUrl)
     || negb (truthy_opt (ethAddress env))
     || negb (truthy_opt (email_of (userData env)))
  then throw {| message := "Missing required information to rate site" |}
  else
    setLoading true ;;;
    try_finally
      (try_catch
         (createAttestation svc (str_of (SAFETY_RATING_SCHEMA_ID env))
            currentUrl {| url := currentUrl; isSafe := isSafe |} ;;;
          loadSiteRatings currentUrl ;;;
          setUserRating (Some isSafe) ;;;
          toast {| title := "Success";
                   description :=
                     "Site rated as "
                     ++ (if isSafe then "safe" else "unsafe")
                     ++ " successfully!";
                   status := "success"; duration := 3000;
                   isClosable := true |})
         (fun error =>
            toast {| title := "Error";
                     description :=
                       "Failed to rate site: " ++ message error;
                     status := "error"; duration := 3000;
                     isClosable := true |} ;;;
            throw error))
      (setLoading false).
End Provider.

(** *** Vocabulary of the properties *)

Section Vocabulary.
Variable env : Env.
Variable svc : Service Attestation RatingData.

Abbreviation W := (World RatingData HookState).

(** The world in which the [try] block of [loadSiteRatings] starts. *)
Definition loading_world (w : W) : W :=
  {| hook := {| currentUrl := currentUrl (hook w);
                isValidUrl := isValidUrl (hook w);
                siteRatings := siteRatings (hook w);
                userRating := userRating (hook w);
                loading := true |};
     console := console w; toasts := toasts w; io := io w |}.

(** The world after the [finally] block. *)
Definition loaded_world (w : W) : W :=
  {| hook := {| currentUrl := currentUrl (hook w);
                isValidUrl := isValidUrl (hook w);
                siteRatings := siteRatings (hook w);
                userRating := userRating (hook w);
                loading := false |};
     console := console w; toasts := toasts w; io := io w |}.

(** The part of a load that precedes the publication of the tally: the
    fetch of the records and the counting loop. *)
Definition tally_phase (schemaId url : string) : SM (nat * nat) :=
  attestations <- getAttestations svc schemaId (toLowerCase url) ;;
  countLatest svc schemaId (toLowerCase url)
    (Set_of (map signer attestations)) 0 0.

(** The service answers every lookup of the subject with [latest]. *)
Definition answers (schemaId key : string)
           (latest : string -> option Attestation) : Prop :=
  forall tr user,
    svc_getLatestAttestationForUser svc tr schemaId key user =
    inr (latest user).

(** The counters after the loop, from the answers to the lookups. *)
Fixpoint counted (latest : string -> option Attestation)
         (users : list string) (safeCount unsafeCount : nat) : nat * nat :=
  match users with
  | [] => (safeCount, unsafeCount)
  | user :: rest =>
      match latest user with
      | Some a =>
          if isSafe (decodedData a)
          then counted latest rest (S safeCount) unsafeCount
          else counted latest rest safeCount (S unsafeCount)
      | None => counted latest rest safeCount unsafeCount
      end
  end.

(** The tally published from the two counters. *)
Definition tally_of (counts : nat * nat) : Ratings :=
  {| safeCount := fst counts; unsafeCount := snd counts;
     totalRatings := fst counts + snd counts |}.

(** The toast of a failed rating. *)
Definition rate_error_toast (e : Error) : Toast :=
  {| title := "Error";
     description := "Failed to rate site: " ++ message e;
     status := "error"; duration := 3000; isClosable := true |}.

(** Something [rateSite] needs is missing. *)
Definition rate_refused (h : HookState) : bool :=
  negb (truthy_opt (SAFETY_RATING_SCHEMA_ID env))
  || negb (truthy (currentUrl h))
  || negb (truthy_opt (ethAddress env))
  || negb (truthy_opt (email_of (userData env))).

(** The record [rateSite] asks the service to issue. *)
Definition rate_call (h : HookState) (safe : bool) : Call RatingData :=
  CallCreateAttestation (str_of (SAFETY_RATING_SCHEMA_ID env)) (currentUrl h)
    {| url := currentUrl h; isSafe := safe |}.

End Vocabulary.

(** *** The effect that runs when the provider mounts *)

Definition setCurrentUrl (u : string) : SM unit :=
  set_hook (fun h =>
    {| currentUrl := u; isValidUrl := isValidUrl h;
       siteRatings := siteRatings h; userRating := userRating h;
       loading := loading h |}).

Definition setIsValidUrl (b : bool) : SM unit :=
  set_hook (fun h =>
    {| currentUrl := currentUrl h; isValidUrl := b;
       siteRatings := siteRatings h; userRating := userRating h;
       loading := loading h |}).

Section Effect.
Variable env : Env.
Variable svc : Service Attestation RatingData.

(** [getActiveTabUrl] and [isValidFlagUrl] belong to [utils/helpers], which
    is not among the sources, and [new URL(url).hostname] to the browser:
    they are parameters. The first completes with the url of the tab, if
    any, or rejects; the constructor of [URL] throws on what is no url. *)
Variable getActiveTabUrl : Error + option string.
Variable hostname : string -> Error + string.
Variable isValidFlagUrl : string -> bool.

Definition initialize : SM unit :=
  setLoading true ;;;
  url <- of_result getActiveTabUrl ;;
  if truthy_opt url then
    domain <- of_result (hostname (str_of url)) ;;
    setCurrentUrl domain ;;;
    setIsValidUrl (isValidFlagUrl (str_of url)) ;;;
    loadSiteRatings env svc domain
  else setLoading false.
End Effect.

(** *** Vocabulary of the further properties *)

(** The total of the published tally, if any, is the sum of its counts. *)
Definition consistent (h : HookState) : Prop :=
  match siteRatings h with
  | Some t => totalRatings t = safeCount t + unsafeCount t
  | None => True
  end.

(** A read of the records of the subject [key] under [schemaId]. *)
Definition is_read_of (schemaId key : string) (ev : Event RatingData)
  : Prop :=
  match ev_call ev with
  | CallGetAttestations s k => s = schemaId /\ k = key
  | CallGetLatestAttestationForUser s k _ => s = schemaId /\ k = key
  | CallCreateAttestation _ _ _ => False
  end.

(** The latest record of [user] rates the site safe, respectively unsafe. *)
Definition rated_safe (latest : string -> option Attestation)
           (user : string) : bool :=
  match latest user with
  | Some a => isSafe (decodedData a)
  | None => false
  end.

Definition rated_unsafe (latest : string -> option Attestation)
           (user : string) : bool :=
  match latest user with
  | Some a => negb (isSafe (decodedData a))
  | None => false
  end.

(** A successful lookup of the latest record of [user]. *)
Definition looked_up (schemaId key user : string) : Event RatingData :=
  {| ev_call := CallGetLatestAttestationForUser schemaId key user;
     ev_ok := true |}.

(** The toast of a recorded rating. *)
Definition rate_success_toast (safe : bool) : Toast :=
  {| title := "Success";
     description :=
       "Site rated as " ++ (if safe then "safe" else "unsafe")
       ++ " successfully!";
     status := "success"; duration := 3000; isClosable := true |}.

End SiteRatings.

(* ================================================================== *)
(** ** Sample data *)

Module Samples.

Definition always_up (n : nat) : bool := false.

(** The service is down for the call number [n] only. *)
Definition down_at (n m : nat) : bool := Nat.eqb m n.

(** *** Comment votes *)

Definition vote_att (who : string) (t v : Z) : CommentVotes.Attestation :=
  {| CommentVotes.attester := who;
     CommentVotes.attestTimestamp := t;
     CommentVotes.decodedData :=
       {| CommentVotes.commentId := "c1"; CommentVotes.vote := v |} |}.

(** One signer votes up, then down under another spelling of its address;
    a second signer votes up. *)
Definition votes_c1 : list CommentVotes.Attestation :=
  [vote_att "0xABC" 1 1; vote_att "0xb" 2 1; vote_att "0xabc" 3 (-1)].

Definition voter : CommentVotes.Env :=
  {| CommentVotes.VOTE_SCHEMA_ID := Some "0x1";
     CommentVotes.ethAddress := Some "0xAbC" |}.

Definition anonymous_voter : CommentVotes.Env :=
  {| CommentVotes.VOTE_SCHEMA_ID := Some "0x1";
     CommentVotes.ethAddress := None |}.

Definition unconfigured_voter : CommentVotes.Env :=
  {| CommentVotes.VOTE_SCHEMA_ID := None;
     CommentVotes.ethAddress := Some "0xAbC" |}.

Definition vote_service (down : nat -> bool)
  : Service CommentVotes.Attestation CommentVotes.VoteData :=
  referenceService CommentVotes.attester CommentVotes.attestTimestamp
    (fun _ _ _ => votes_c1) down.

Definition vote_world : World CommentVotes.VoteData CommentVotes.HookState :=
  {| hook := CommentVotes.initial; console := []; toasts := []; io := [] |}.

(** *** Site ratings *)

Definition rating (who : string) (t : Z) (safe : bool)
  : SiteRatings.Attestation :=
  {| SiteRatings.signer := who;
     SiteRatings.attestTimestamp := t;
     SiteRatings.decodedData :=
       {| SiteRatings.url := "example.com"; SiteRatings.isSafe := safe |} |}.

(** Two ratings by one identity, its address spelled in two ways. *)
Definition ratings_mixed_case : list SiteRatings.Attestation :=
  [rating "0xABC" 1 true; rating "0xabc" 2 true].

(** Three signers rate safe, safe, unsafe; the first one then rates unsafe. *)
Definition ratings_three : list SiteRatings.Attestation :=
  [rating "0xa" 1 true; rating "0xb" 2 true; rating "0xc" 3 false;
   rating "0xa" 4 false].

Definition rater : SiteRatings.Env :=
  {| SiteRatings.SAFETY_RATING_SCHEMA_ID := Some "0x1";
     SiteRatings.ethAddress := Some "0xA";
     SiteRatings.userData :=
       Some {| SiteRatings.email := Some "a@example.com" |} |}.

(** A viewer who has never rated the site. *)
Definition newcomer : SiteRatings.Env :=
  {| SiteRatings.SAFETY_RATING_SCHEMA_ID := Some "0x1";
     SiteRatings.ethAddress := Some "0xd";
     SiteRatings.userData :=
       Some {| SiteRatings.email := Some "d@example.com" |} |}.

Definition anonymous_viewer : SiteRatings.Env :=
  {| SiteRatings.SAFETY_RATING_SCHEMA_ID := Some "0x1";
     SiteRatings.ethAddress := None;
     SiteRatings.userData := None |}.

Definition unconfigured_rater : SiteRatings.Env :=
  {| SiteRatings.SAFETY_RATING_SCHEMA_ID := None;
     SiteRatings.ethAddress := Some "0xA";
     SiteRatings.userData :=
       Some {| SiteRatings.email := Some "a@example.com" |} |}.

Definition rating_service (records : list SiteRatings.Attestation)
           (down : nat -> bool)
  : Service SiteRatings.Attestation SiteRatings.RatingData :=
  referenceService SiteRatings.signer SiteRatings.attestTimestamp
    (fun _ _ _ => records) down.

(** The provider as it is mounted. *)
Definition fresh_world : World SiteRatings.RatingData SiteRatings.HookState :=
  {| hook := SiteRatings.initial; console := []; toasts := []; io := [] |}.

(** The provider after a load that published two safe ratings and an unsafe
    one, and a safe rating of the viewer. *)
Definition ready_world : World SiteRatings.RatingData SiteRatings.HookState :=
  {| hook :=
       {| SiteRatings.currentUrl := "example.com";
          SiteRatings.isValidUrl := true;
          SiteRatings.siteRatings :=
            Some {| SiteRatings.safeCount := 2;
                    SiteRatings.unsafeCount := 1;
                    SiteRatings.totalRatings := 3 |};
          SiteRatings.userRating := Some true;
          SiteRatings.loading := false |};
     console := []; toasts := []; io := [] |}.

End Samples.

(* ================================================================== *)
(** * Properties *)

(** ** Strings, objects and sets *)

Lemma lower_ascii_idem (c : ascii) : lower_ascii (lower_ascii c) = lower_ascii c.
Proof.
  destruct c as [[] [] [] [] [] [] [] []]; reflexivity.
Qed.

Lemma toLowerCase_idem (s : string) : toLowerCase (toLowerCase s) = toLowerCase s.
Proof.
  induction s as [|c s IH]; simpl; [reflexivity|].
  now rewrite lower_ascii_idem, IH.
Qed.

Section ObjectFacts.
Variable V : Type.
Implicit Types (o : JsObject V) (k : string) (v : V).

Lemma obj_get_set_same k v o : obj_get k (obj_set k v o) = Some v.
Proof.
  induction o as [|[k' v'] o IH]; simpl.
  - now rewrite String.eqb_refl.
  - destruct (String.eqb k k') eqn:E; simpl.
    + now rewrite String.eqb_refl.
    + now rewrite E.
Qed.

Lemma obj_get_set_other k k' v o :
  k <> k' -> obj_get k (obj_set k' v o) = obj_get k o.
Proof.
  intros Hne. induction o as [|[k2 v2] o IH]; simpl.
  - apply String.eqb_neq in Hne. now rewrite Hne.
  - destruct (String.eqb k' k2) eqn:E; simpl.
    + apply String.eqb_eq in E. subst k2.
      apply String.eqb_neq in Hne. now rewrite Hne.
    + now rewrite IH.
Qed.

Lemma obj_get_None_keys k o : obj_get k o = None <-> ~ In k (obj_keys o).
Proof.
  induction o as [|[k' v'] o IH]; simpl.
  - tauto.
  - destruct (String.eqb k k') eqn:E.
    + apply String.eqb_eq in E. subst. split; [discriminate | tauto].
    + apply String.eqb_neq in E. rewrite IH. split.
      * intros H [H1|H1]; [now subst | tauto].
      * tauto.
Qed.

Lemma set_has_In k (s : list string) : set_has k s = true <-> In k s.
Proof.
  unfold set_has. rewrite existsb_exists. split.
  - intros [x [Hin E]]. apply String.eqb_eq in E. now subst.
  - intros Hin. exists k. split; [assumption | apply String.eqb_refl].
Qed.

Lemma obj_keys_set_present k v o :
  In k (obj_keys o) -> obj_keys (obj_set k v o) = obj_keys o.
Proof.
  induction o as [|[k' v'] o IH]; simpl; [tauto|].
  destruct (String.eqb k k') eqn:E; simpl.
  - apply String.eqb_eq in E. now subst.
  - apply String.eqb_neq in E. intros [H|H]; [now subst|].
    now rewrite IH.
Qed.

Lemma obj_keys_set_fresh k v o :
  ~ In k (obj_keys o) -> obj_keys (obj_set k v o) = obj_keys o ++ [k].
Proof.
  induction o as [|[k' v'] o IH]; simpl; [reflexivity|].
  destruct (String.eqb k k') eqn:E; simpl.
  - apply String.eqb_eq in E. subst. tauto.
  - intros H. rewrite IH; tauto.
Qed.

(** Assigning a property adds its key as [Set.add] would. *)
Lemma obj_keys_set k v o : obj_keys (obj_set k v o) = set_add k (obj_keys o).
Proof.
  unfold set_add. destruct (set_has k (obj_keys o)) eqn:E.
  - apply set_has_In in E. now apply obj_keys_set_present.
  - apply obj_keys_set_fresh. rewrite <- set_has_In. now rewrite E.
Qed.
End ObjectFacts.

Lemma set_add_In x y s : In y (set_add x s) <-> y = x \/ In y s.
Proof.
  unfold set_add. destruct (set_has x s) eqn:E.
  - apply (set_has_In x s) in E. split; [tauto | intros [->|]; assumption].
  - rewrite in_app_iff. simpl. split; [intros [|[|[]]]; auto | intros [|]; auto].
Qed.

Lemma set_add_NoDup x s : NoDup s -> NoDup (set_add x s).
Proof.
  intros Hs. unfold set_add. destruct (set_has x s) eqn:E; [assumption|].
  assert (Hx : ~ In x s) by (rewrite <- (set_has_In x s); now rewrite E).
  clear E. induction Hs as [|y s Hy Hs IH]; simpl.
  - constructor; [tauto | constructor].
  - constructor.
    + rewrite in_app_iff. simpl. intros [H|[H|[]]]; [contradiction|].
      apply Hx. left. now symmetry.
    + apply IH. intros H. apply Hx. now right.
Qed.

Lemma Set_of_snoc xs x : Set_of (xs ++ [x]) = set_add x (Set_of xs).
Proof. unfold Set_of. now rewrite fold_left_app. Qed.

Lemma Set_of_In xs y : In y (Set_of xs) <-> In y xs.
Proof.
  induction xs as [|x xs IH] using rev_ind; [reflexivity|].
  rewrite Set_of_snoc, set_add_In, IH, in_app_iff. simpl.
  intuition congruence.
Qed.

Lemma Set_of_NoDup xs : NoDup (Set_of xs).
Proof.
  induction xs as [|x xs IH] using rev_ind; [constructor|].
  rewrite Set_of_snoc. now apply set_add_NoDup.
Qed.

(** A [Set] has as many members as its input has distinct elements. *)
Lemma Set_of_length xs : length (Set_of xs) = length (nodup string_dec xs).
Proof.
  apply Permutation_length, NoDup_Permutation.
  - apply Set_of_NoDup.
  - apply NoDup_nodup.
  - intros y. now rewrite Set_of_In, nodup_In.
Qed.

(** ** The latest record of a signer *)

Section LatestFacts.
Variable A : Type.
Variable signer_of : A -> string.
Variable time_of : A -> Z.

Abbreviation latest := (latestRecordForSigner signer_of time_of).
Abbreviation is_latest := (is_latest signer_of time_of).
Abbreviation has_record := (has_record signer_of).

Lemma latest_snoc k l a :
  latest k (l ++ [a]) = latest_step signer_of time_of k (latest k l) a.
Proof. unfold latestRecordForSigner. now rewrite fold_left_app. Qed.

(** Every record of the signer is at most as new as the latest one. *)
Lemma is_latest_max k l r :
  is_latest k l r ->
  forall x, In x l -> toLowerCase (signer_of x) = k ->
            (time_of x <= time_of r)%Z.
Proof.
  intros (before & after & -> & _ & Hb & Ha) x Hin Hk.
  apply in_app_iff in Hin. destruct Hin as [Hin|[->|Hin]].
  - specialize (Hb x Hin Hk). lia.
  - lia.
  - auto.
Qed.

Lemma is_latest_In k l r :
  is_latest k l r -> In r l /\ toLowerCase (signer_of r) = k.
Proof.
  intros (before & after & -> & Hk & _). split; [|assumption].
  apply in_app_iff. right. now left.
Qed.

Lemma is_latest_skip k l r a :
  is_latest k l r ->
  (toLowerCase (signer_of a) = k -> (time_of a <= time_of r)%Z) ->
  is_latest k (l ++ [a]) r.
Proof.
  intros (before & after & -> & Hk & Hb & Ha) Hle.
  exists before, (after ++ [a]). repeat split; auto.
  - now rewrite <- app_assoc.
  - intros x Hin Hx. apply in_app_iff in Hin.
    destruct Hin as [Hin|[->|[]]]; auto.
Qed.

Lemma is_latest_last k l a :
  toLowerCase (signer_of a) = k ->
  (forall x, In x l -> toLowerCase (signer_of x) = k ->
             (time_of x < time_of a)%Z) ->
  is_latest k (l ++ [a]) a.
Proof.
  intros Hk Hlt. exists l, []. repeat split; auto.
  intros x [].
Qed.

(** What [latestRecordForSigner] computes. *)
Lemma latest_spec k l :
  match latest k l with
  | Some r => is_latest k l r
  | None => forall x, In x l -> toLowerCase (signer_of x) <> k
  end.
Proof.
  induction l as [|a l IH] using rev_ind; [intros x []|].
  rewrite latest_snoc. unfold latest_step.
  destruct (String.eqb (toLowerCase (signer_of a)) k) eqn:E.
  - apply String.eqb_eq in E.
    destruct (latest k l) as [h|].
    + destruct (time_of h <? time_of a)%Z eqn:T.
      * apply Z.ltb_lt in T. apply is_latest_last; [assumption|].
        intros x Hin Hx. pose proof (is_latest_max IH x Hin Hx). lia.
      * apply Z.ltb_ge in T. apply is_latest_skip; auto.
    + apply is_latest_last; [assumption|].
      intros x Hin Hx. now destruct (IH x Hin).
  - apply String.eqb_neq in E.
    destruct (latest k l) as [h|].
    + apply is_latest_skip; [assumption | tauto].
    + intros x Hin. apply in_app_iff in Hin.
      destruct Hin as [Hin|[->|[]]]; auto.
Qed.

Lemma latest_Some k l r : latest k l = Some r -> is_latest k l r.
Proof. intros H. pose proof (latest_spec k l) as S. now rewrite H in S. Qed.

Lemma latest_None k l : latest k l = None <-> ~ has_record k l.
Proof.
  pose proof (latest_spec k l) as S. split.
  - intros H (x & Hin & Hk). rewrite H in S. now apply (S x).
  - intros H. destruct (latest k l) as [r|]; [|reflexivity].
    destruct H. exists r. now apply is_latest_In.
Qed.

Lemma latest_has_record k l :
  has_record k l -> exists r, latest k l = Some r /\ is_latest k l r.
Proof.
  intros H. destruct (latest k l) as [r|] eqn:E.
  - exists r. split; [reflexivity | now apply latest_Some].
  - apply latest_None in E. contradiction.
Qed.

(** The first record of maximal timestamp is unique. *)
Lemma is_latest_unique k l r r' :
  is_latest k l r -> is_latest k l r' -> r = r'.
Proof.
  intros (b1 & a1 & E1 & K1 & B1 & A1) (b2 & a2 & E2 & K2 & B2 & A2).
  rewrite E1 in E2. clear E1. revert b2 E2 B2.
  induction b1 as [|x b1 IH]; intros [|y b2] E2 B2; simpl in *.
  - now injection E2.
  - injection E2 as Hr Ha. subst y a1.
    assert (time_of r < time_of r')%Z by (apply B2; auto).
    assert (time_of r' <= time_of r)%Z; [|lia].
    apply A1; [|assumption]. apply in_app_iff. right. now left.
  - injection E2 as Hr Ha. subst x a2.
    assert (time_of r' < time_of r)%Z by (apply B1; auto).
    assert (time_of r <= time_of r')%Z; [|lia].
    apply A2; [|assumption]. apply in_app_iff. right. now left.
  - injection E2 as Hx E2. apply (IH (fun z Hz => B1 z (or_intror Hz)) b2 E2).
    intros z Hz. apply B2. now right.
Qed.

(** The newest timestamp of a signer does not depend on the order of the
    records. *)
Lemma is_latest_perm_time k l l' r r' :
  Permutation l l' -> is_latest k l r -> is_latest k l' r' ->
  time_of r' = time_of r.
Proof.
  intros HP H H'.
  destruct (is_latest_In H) as [Hin Hk].
  destruct (is_latest_In H') as [Hin' Hk'].
  pose proof (is_latest_max H r' (Permutation_in _ (Permutation_sym HP) Hin') Hk').
  pose proof (is_latest_max H' r (Permutation_in _ HP Hin) Hk).
  lia.
Qed.

Lemma has_record_perm k l l' :
  Permutation l l' -> has_record k l -> has_record k l'.
Proof.
  intros HP (x & Hin & Hk). exists x. split; [|assumption].
  now apply (Permutation_in _ HP).
Qed.
End LatestFacts.

(** ** Comment votes: resolution per signer *)

Module CommentVotesFacts.
Import CommentVotes.

Abbreviation latest := (latestRecordForSigner attester attestTimestamp).

Lemma reduce_step_get k acc a :
  obj_get k (reduce_step acc a) =
  latest_step attester attestTimestamp k (obj_get k acc) a.
Proof.
  unfold reduce_step, latest_step.
  destruct (String.eqb (toLowerCase (attester a)) k) eqn:E.
  - apply String.eqb_eq in E. subst k.
    destruct (obj_get (toLowerCase (attester a)) acc) as [held|] eqn:G.
    + destruct (attestTimestamp held <? attestTimestamp a)%Z; auto.
      apply obj_get_set_same.
    + apply obj_get_set_same.
  - apply String.eqb_neq in E.
    assert (Hne : k <> toLowerCase (attester a)) by congruence.
    destruct (obj_get (toLowerCase (attester a)) acc) as [held|].
    + destruct (attestTimestamp held <? attestTimestamp a)%Z; auto.
      now apply obj_get_set_other.
    + now apply obj_get_set_other.
Qed.

Lemma userVotes_snoc l a :
  userVotes (l ++ [a]) = reduce_step (userVotes l) a.
Proof. unfold userVotes. now rewrite fold_left_app. Qed.

(** Refinement: the object built by [reduce] holds, under each folded
    signer, that signer's latest record. *)
Lemma userVotes_get k l : obj_get k (userVotes l) = latest k l.
Proof.
  induction l as [|a l IH] using rev_ind; [reflexivity|].
  now rewrite userVotes_snoc, reduce_step_get, IH, latest_snoc.
Qed.

Lemma reduce_step_keys acc a :
  obj_keys (reduce_step acc a) = set_add (key_of a) (obj_keys acc).
Proof.
  unfold reduce_step. fold (key_of a).
  destruct (obj_get (key_of a) acc) as [held|] eqn:G.
  - assert (Hin : In (key_of a) (obj_keys acc)).
    { destruct (in_dec string_dec (key_of a) (obj_keys acc)) as [H|H];
        [assumption|].
      apply obj_get_None_keys in H. congruence. }
    destruct (attestTimestamp held <? attestTimestamp a)%Z.
    + apply obj_keys_set.
    + unfold set_add. apply (set_has_In (key_of a)) in Hin. now rewrite Hin.
  - apply obj_keys_set.
Qed.

(** The signers of the resolved object are the [Set] of folded signers. *)
Lemma userVotes_keys l : obj_keys (userVotes l) = Set_of (map key_of l).
Proof.
  induction l as [|a l IH] using rev_ind; [reflexivity|].
  rewrite userVotes_snoc, reduce_step_keys, IH, map_app.
  change (map key_of [a]) with [key_of a]. now rewrite Set_of_snoc.
Qed.

Lemma obj_set_keyed k a o : keyed o -> k = key_of a -> keyed (obj_set k a o).
Proof.
  intros Ho Hk. induction o as [|[k' v'] o IH]; simpl.
  - intros k2 v2 [[= <- <-]|[]]. assumption.
  - assert (Ho' : keyed o) by (intros k2 v2 H; apply Ho; now right).
    destruct (String.eqb k k').
    + intros k2 v2 [[= <- <-]|H]; [assumption | apply Ho; now right].
    + intros k2 v2 [[= <- <-]|H]; [apply Ho; now left | now apply IH].
Qed.

Lemma userVotes_keyed l : keyed (userVotes l).
Proof.
  induction l as [|a l IH] using rev_ind; [intros k v []|].
  rewrite userVotes_snoc. unfold reduce_step.
  destruct (obj_get (toLowerCase (attester a)) (userVotes l)) as [held|].
  - destruct (attestTimestamp held <? attestTimestamp a)%Z; auto.
    now apply obj_set_keyed.
  - now apply obj_set_keyed.
Qed.

Lemma obj_set_In k a (o : JsObject Attestation) k1 v1 :
  In (k1, v1) (obj_set k a o) -> (k1, v1) = (k, a) \/ In (k1, v1) o.
Proof.
  induction o as [|[k2 v2] o IH]; simpl.
  - intros [H|[]]. now left.
  - destruct (String.eqb k k2); simpl; intros [H|H]; auto.
    destruct (IH H); auto.
Qed.

(** Every resolved record is one of the input. *)
Lemma userVotes_In l k v : In (k, v) (userVotes l) -> In v l.
Proof.
  induction l as [|a l IH] using rev_ind; [intros []|].
  rewrite userVotes_snoc, in_app_iff. unfold reduce_step. simpl.
  destruct (obj_get (toLowerCase (attester a)) (userVotes l)) as [held|].
  - destruct (attestTimestamp held <? attestTimestamp a)%Z; auto.
    intros H. destruct (obj_set_In _ _ _ _ _ H) as [[= _ ->]|H']; auto.
  - intros H. destruct (obj_set_In _ _ _ _ _ H) as [[= _ ->]|H']; auto.
Qed.

Lemma userVotes_NoDup l : NoDup (obj_keys (userVotes l)).
Proof. rewrite userVotes_keys. apply Set_of_NoDup. Qed.


(** *** Counting the resolved votes *)

Section Counting.
Variable env : Env.

Abbreviation count := (fold_left (count_step env)).

Lemma count_total vals entry :
  Forall is_vote vals ->
  upvotes (count vals entry) + downvotes (count vals entry) =
  upvotes entry + downvotes entry + length vals.
Proof.
  intros Hv. revert entry.
  induction Hv as [|a vals Ha Hv IH]; intros entry; simpl; [lia|].
  rewrite IH. simpl. destruct Ha as [-> | ->]; simpl; lia.
Qed.

Lemma count_userVote_anonymous vals entry :
  ethAddress env = None -> userVote (count vals entry) = userVote entry.
Proof.
  intros Hnone. revert entry.
  induction vals as [|a vals IH]; intros entry; simpl; [reflexivity|].
  rewrite IH. simpl. unfold is_current_user. now rewrite Hnone.
Qed.

Lemma count_userVote address (o : JsObject Attestation) entry :
  ethAddress env = Some address ->
  keyed o -> NoDup (obj_keys o) ->
  userVote (count (obj_values o) entry) =
  match obj_get (toLowerCase address) o with
  | Some v => Some (vote (decodedData v))
  | None => userVote entry
  end.
Proof.
  intros Haddr Hk Hnd. revert entry.
  induction o as [|[k v] o IH]; intros entry; simpl; [reflexivity|].
  assert (Hkv : k = key_of v) by (apply Hk; now left).
  assert (Hk' : keyed o) by (intros k2 v2 H; apply Hk; now right).
  inversion Hnd as [|? ? Hnotin Hnd']; subst.
  rewrite (IH Hk' Hnd'). simpl. unfold is_current_user. rewrite Haddr.
  fold (key_of v). rewrite (String.eqb_sym (toLowerCase address)).
  destruct (String.eqb (key_of v) (toLowerCase address)) eqn:E.
  - apply String.eqb_eq in E. rewrite <- E.
    apply obj_get_None_keys in Hnotin. now rewrite Hnotin.
  - reflexivity.
Qed.

(** The two counters add up to the number of distinct folded signers, when
    every record carries an upvote or a downvote. *)
Lemma countVotes_total l :
  Forall is_vote l ->
  upvotes (countVotes env l) + downvotes (countVotes env l) =
  distinct_signers attester l.
Proof.
  intros Hv. unfold countVotes. rewrite count_total.
  - simpl. unfold obj_values, distinct_signers. rewrite length_map.
    rewrite <- (length_map fst). fold (obj_keys (userVotes l)).
    rewrite userVotes_keys. apply Set_of_length.
  - apply Forall_forall. intros v Hin. unfold obj_values in Hin.
    apply in_map_iff in Hin. destruct Hin as ([k v'] & <- & Hin). simpl.
    rewrite Forall_forall in Hv. apply Hv. now apply (userVotes_In l k).
Qed.

(** Own vote of a known identity: the vote of its latest record, or none. *)
Lemma countVotes_userVote address l :
  ethAddress env = Some address ->
  userVote (countVotes env l) =
  option_map (fun r => vote (decodedData r)) (latest (toLowerCase address) l).
Proof.
  intros Haddr. unfold countVotes.
  rewrite (count_userVote _ Haddr (userVotes_keyed l) (userVotes_NoDup l)).
  rewrite userVotes_get. now destruct (latest (toLowerCase address) l).
Qed.

Lemma countVotes_userVote_anonymous l :
  ethAddress env = None -> userVote (countVotes env l) = None.
Proof. intros H. unfold countVotes. now rewrite count_userVote_anonymous. Qed.
End Counting.


(** *** Running the hook *)

Section Running.
Variable env : Env.
Variable svc : Service Attestation VoteData.

Abbreviation W := (World VoteData HookState).

Lemma forComments_frame schemaId ids vm (w : W) :
  let w' := snd (forComments env svc schemaId ids vm w) in
  hook w' = hook w /\ console w' = console w /\ toasts w' = toasts w.
Proof.
  revert vm w. induction ids as [|c ids IH]; intros vm w; simpl; [auto|].
  unfold bind, getAttestations, answer.
  destruct (svc_getAttestations svc (io w) schemaId c) as [e|l]; simpl; auto.
  match goal with |- context [forComments _ _ _ _ ?v ?x] =>
    exact (IH v x) end.
Qed.

(** The loop returns when all its fetches succeed and throws at the first
    one that fails. *)
Lemma forComments_trace schemaId ids vm (w : W) :
  exists evs, io (snd (forComments env svc schemaId ids vm w)) = io w ++ evs /\
    match fst (forComments env svc schemaId ids vm w) with
    | Returned _ => Forall (fun ev => ev_ok ev = true) evs
    | Thrown _ => Exists failed_call evs
    end.
Proof.
  revert vm w. induction ids as [|c ids IH]; intros vm w; simpl.
  - exists []. now rewrite app_nil_r.
  - unfold bind, getAttestations, answer.
    destruct (svc_getAttestations svc (io w) schemaId c) as [e|l]; simpl.
    + eexists. split; [reflexivity|]. now left.
    + match goal with |- context [forComments _ _ _ _ ?v ?x] =>
        destruct (IH v x) as (evs & Hio & Hres) end.
      simpl in Hio. rewrite <- app_assoc in Hio.
      eexists. split; [exact Hio|].
      destruct (fst (forComments _ _ _ _ _ _)).
      * constructor; [reflexivity | assumption].
      * now right.
Qed.

Lemma forComments_serves schemaId recs ids vm (w : W) :
  serves svc schemaId recs ids ->
  fst (forComments env svc schemaId ids vm w) =
  Returned (voteMap_of env recs ids vm).
Proof.
  revert vm w. induction ids as [|c ids IH]; intros vm w Hs; simpl;
    [reflexivity|].
  unfold bind, getAttestations, answer.
  rewrite (Hs (io w) c (or_introl eq_refl)). simpl.
  apply IH. intros tr c' Hin. apply Hs. now right.
Qed.

Lemma voteMap_of_get recs ids vm c :
  In c ids -> obj_get c (voteMap_of env recs ids vm) = Some (countVotes env (recs c)).
Proof.
  intros Hin.
  assert (G : forall ids vm,
             In c ids \/ obj_get c vm = Some (countVotes env (recs c)) ->
             obj_get c (voteMap_of env recs ids vm) =
             Some (countVotes env (recs c))).
  { clear. induction ids as [|a ids IH]; intros vm H; simpl.
    - destruct H as [[]|H]. exact H.
    - apply IH. destruct H as [[->|H]|H]; auto.
      + right. apply obj_get_set_same.
      + destruct (string_dec c a) as [->|Hne].
        * right. apply obj_get_set_same.
        * right. now rewrite obj_get_set_other. }
  apply G. now left.
Qed.

(** [getVotesForComments], once the schema identifier is there. *)
Lemma getVotesForComments_run ids (w : W) :
  truthy_opt (VOTE_SCHEMA_ID env) = true ->
  getVotesForComments env svc ids w =
  match forComments env svc (str_of (VOTE_SCHEMA_ID env)) ids []
                    (loading_world w) with
  | (Returned vm, w2) =>
      (Returned vm,
       {| hook := {| loading := false; error := error (hook w2) |};
          console := console w2; toasts := toasts w2; io := io w2 |})
  | (Thrown e, w2) =>
      (Returned [],
       {| hook := {| loading := false;
                     error := Some "Failed to fetch votes" |};
          console := console w2 ++ [console_error "Error fetching votes:" e];
          toasts := toasts w2; io := io w2 |})
  end.
Proof.
  intros Hs. unfold getVotesForComments. rewrite Hs. simpl.
  unfold bind, try_finally, try_catch, setLoading, setError, set_hook,
    console_write, ret. simpl.
  fold (loading_world w).
  destruct (forComments env svc (str_of (VOTE_SCHEMA_ID env)) ids []
              (loading_world w)) as [[vm|e] w2]; reflexivity.
Qed.

Lemma voteOnComment_refused (commentId : string) (isUpvote : bool) (w : W) :
  vote_refused env commentId = true ->
  voteOnComment env svc commentId isUpvote w =
  (Returned tt,
   {| hook := hook w; console := console w;
      toasts := toasts w ++ [vote_error_toast "Cannot vote: missing data"];
      io := io w |}).
Proof.
  unfold vote_refused, voteOnComment. intros ->. reflexivity.
Qed.

Lemma voteOnComment_write_failure (commentId : string) (isUpvote : bool) (w : W) e :
  vote_refused env commentId = false ->
  svc_createAttestation svc (io w) (str_of (VOTE_SCHEMA_ID env)) commentId
    {| commentId := commentId; vote := if isUpvote then 1%Z else (-1)%Z |}
  = inl e ->
  voteOnComment env svc commentId isUpvote w =
  (Returned tt,
   {| hook := hook w;
      console := console w ++ [console_error "Error voting on comment:" e];
      toasts :=
        toasts w ++ [vote_error_toast ("Failed to vote: " ++ message e)];
      io := io w ++ [{| ev_call := vote_call env commentId isUpvote;
                        ev_ok := false |}] |}).
Proof.
  unfold vote_refused, voteOnComment. intros -> Hc.
  unfold try_catch, bind, createAttestation, answer. rewrite Hc. reflexivity.
Qed.

Lemma voteOnComment_written (commentId : string) (isUpvote : bool) (w : W) :
  vote_refused env commentId = false ->
  svc_createAttestation svc (io w) (str_of (VOTE_SCHEMA_ID env)) commentId
    {| commentId := commentId; vote := if isUpvote then 1%Z else (-1)%Z |}
  = inr tt ->
  voteOnComment env svc commentId isUpvote w =
  (Returned tt,
   {| hook := hook w; console := console w;
      toasts :=
        toasts w ++ [{| title := "Success";
                        description := "Vote recorded successfully!";
                        status := "success"; duration := 3000;
                        isClosable := true |}];
      io := io w ++ [{| ev_call := vote_call env commentId isUpvote;
                        ev_ok := true |}] |}).
Proof.
  unfold vote_refused, voteOnComment. intros -> Hc.
  unfold try_catch, bind, createAttestation, answer. rewrite Hc. reflexivity.
Qed.

(** [voteOnComment] completes normally, whatever happens. *)
Lemma voteOnComment_returns (commentId : string) (isUpvote : bool) (w : W) :
  fst (voteOnComment env svc commentId isUpvote w) = Returned tt.
Proof.
  destruct (vote_refused env commentId) eqn:G.
  - now rewrite voteOnComment_refused.
  - destruct (svc_createAttestation svc (io w) (str_of (VOTE_SCHEMA_ID env))
                commentId
                {| commentId := commentId;
                   vote := if isUpvote then 1%Z else (-1)%Z |})
      as [e|[]] eqn:Hc.
    + now rewrite (voteOnComment_write_failure _ _ _ G Hc).
    + now rewrite (voteOnComment_written _ _ _ G Hc).
Qed.

(** Without a schema identifier [getVotesForComments] only writes a line to
    the console. *)
Lemma getVotesForComments_unconfigured ids (w : W) :
  truthy_opt (VOTE_SCHEMA_ID env) = false ->
  getVotesForComments env svc ids w =
  (Returned [],
   {| hook := hook w;
      console := console w ++ [console_log "VOTE_SCHEMA_ID is not defined"];
      toasts := toasts w; io := io w |}).
Proof. intros H. unfold getVotesForComments. now rewrite H. Qed.

(** A load in which a fetch failed. *)
Lemma getVotesForComments_failed ids (w : W) evs :
  truthy_opt (VOTE_SCHEMA_ID env) = true ->
  io (snd (getVotesForComments env svc ids w)) = io w ++ evs ->
  Exists failed_call evs ->
  exists e (w2 : W),
    getVotesForComments env svc ids w =
    (Returned [],
     {| hook := {| loading := false;
                   error := Some "Failed to fetch votes" |};
        console := console w ++ [console_error "Error fetching votes:" e];
        toasts := toasts w; io := io w2 |}).
Proof.
  intros Hs Hio Hf. rewrite (getVotesForComments_run _ _ Hs) in *.
  pose proof (forComments_trace (str_of (VOTE_SCHEMA_ID env)) ids []
                (loading_world w)) as (evs' & Hio' & Hres).
  pose proof (forComments_frame (str_of (VOTE_SCHEMA_ID env)) ids []
                (loading_world w)) as (_ & Hc & Ht).
  destruct (forComments env svc (str_of (VOTE_SCHEMA_ID env)) ids []
              (loading_world w)) as [[vm|e] w2]; simpl in *.
  - rewrite Hio' in Hio. apply app_inv_head in Hio. subst evs'.
    apply Exists_exists in Hf. destruct Hf as (ev & Hin & Hev).
    rewrite Forall_forall in Hres. specialize (Hres ev Hin).
    unfold failed_call in Hev. congruence.
  - exists e, w2. now rewrite Hc, Ht.
Qed.

(** A completed load: the entry of every comment carries the own vote. *)
Lemma getVotesForComments_own_vote recs ids (w : W) address :
  truthy_opt (VOTE_SCHEMA_ID env) = true ->
  ethAddress env = Some address ->
  serves svc (str_of (VOTE_SCHEMA_ID env)) recs ids ->
  exists voteMap,
    fst (getVotesForComments env svc ids w) = Returned voteMap /\
    forall c, In c ids ->
      exists entry,
        obj_get c voteMap = Some entry /\
        (has_record attester (toLowerCase address) (recs c) ->
         exists r,
           is_latest attester attestTimestamp (toLowerCase address) (recs c) r
           /\ userVote entry = Some (vote (decodedData r))) /\
        (~ has_record attester (toLowerCase address) (recs c) ->
         userVote entry = None).
Proof.
  intros Hs Ha Hserves. exists (voteMap_of env recs ids []). split.
  - rewrite (getVotesForComments_run _ _ Hs).
    pose proof (forComments_serves [] (loading_world w) Hserves) as H.
    destruct (forComments env svc _ ids [] (loading_world w)) as [[vm|e] w2];
      simpl in H; [|discriminate].
    now injection H as ->.
  - intros c Hc. exists (countVotes env (recs c)).
    split; [now apply voteMap_of_get|].
    rewrite (countVotes_userVote _ (recs c) Ha). split.
    + intros Hrec.
      destruct (latest_has_record attestTimestamp Hrec) as (r & -> & Hl).
      now exists r.
    + intros Hno. apply (latest_None attester attestTimestamp) in Hno.
      now rewrite Hno.
Qed.
End Running.

End CommentVotesFacts.

(** ** Site ratings *)

Module SiteRatingsFacts.
Import SiteRatings.

Section Running.
Variable env : Env.
Variable svc : Service Attestation RatingData.

Abbreviation W := (World RatingData HookState).

Lemma countLatest_frame schemaId key users s u (w : W) :
  let w' := snd (countLatest svc schemaId key users s u w) in
  hook w' = hook w /\ console w' = console w /\ toasts w' = toasts w.
Proof.
  revert s u w. induction users as [|x users IH]; intros s u w; simpl;
    [auto|].
  unfold bind, getLatestAttestationForUser, answer.
  destruct (svc_getLatestAttestationForUser svc (io w) schemaId key x)
    as [e|[a|]]; simpl; auto.
  - destruct (isSafe (decodedData a));
      match goal with |- context [countLatest _ _ _ _ ?a ?b ?x] =>
        exact (IH a b x) end.
  - match goal with |- context [countLatest _ _ _ _ ?a ?b ?x] =>
      exact (IH a b x) end.
Qed.

Lemma countLatest_answers schemaId key latest users s u (w : W) :
  answers svc schemaId key latest ->
  fst (countLatest svc schemaId key users s u w) =
  Returned (counted latest users s u).
Proof.
  intros Ha. revert s u w.
  induction users as [|x users IH]; intros s u w; simpl; [reflexivity|].
  unfold bind, getLatestAttestationForUser, answer. rewrite Ha.
  destruct (latest x) as [a|]; simpl; [destruct (isSafe (decodedData a))|];
    apply IH.
Qed.

(** Every member with an answer adds one unit to one of the counters. *)
Lemma counted_total latest users s u :
  (forall x, In x users -> latest x <> None) ->
  fst (counted latest users s u) + snd (counted latest users s u) =
  s + u + length users.
Proof.
  revert s u. induction users as [|x users IH]; intros s u H; simpl; [lia|].
  assert (H' : forall y, In y users -> latest y <> None)
    by (intros y Hy; apply H; now right).
  destruct (latest x) as [a|] eqn:E.
  - destruct (isSafe (decodedData a)); rewrite (IH _ _ H'); lia.
  - destruct (H x (or_introl eq_refl) E).
Qed.

(** [loadSiteRatings], once the schema identifier and the url are there. *)
Lemma loadSiteRatings_run url (w : W) :
  truthy_opt (SAFETY_RATING_SCHEMA_ID env) = true -> truthy url = true ->
  loadSiteRatings env svc url w =
  match loadSiteRatings_body env svc
          (str_of (SAFETY_RATING_SCHEMA_ID env)) url (loading_world w) with
  | (Returned _, w2) => (Returned tt, loaded_world w2)
  | (Thrown e, w2) =>
      (Returned tt,
       loaded_world
         {| hook := hook w2;
            console :=
              console w2 ++ [console_error "Error loading site ratings:" e];
            toasts := toasts w2; io := io w2 |})
  end.
Proof.
  intros Hs Hu. unfold loadSiteRatings. rewrite Hs, Hu. simpl.
  unfold bind at 1. unfold setLoading at 1. unfold set_hook at 1.
  fold (loading_world w).
  unfold try_finally, try_catch.
  destruct (loadSiteRatings_body env svc _ url (loading_world w))
    as [[[]|e] w2]; reflexivity.
Qed.

(** [loadSiteRatings] never throws. *)
Lemma loadSiteRatings_returns url (w : W) :
  fst (loadSiteRatings env svc url w) = Returned tt.
Proof.
  destruct (truthy_opt (SAFETY_RATING_SCHEMA_ID env)) eqn:Hs.
  - destruct (truthy url) eqn:Hu.
    + rewrite (loadSiteRatings_run _ _ Hs Hu).
      now destruct (loadSiteRatings_body _ _ _ _ _) as [[[]|e] w2].
    + unfold loadSiteRatings. rewrite Hs, Hu. reflexivity.
  - unfold loadSiteRatings. rewrite Hs. reflexivity.
Qed.

(** The body of the [try] block, through its first phase. *)
Lemma loadSiteRatings_body_phases schemaId url (w : W) :
  loadSiteRatings_body env svc schemaId url w =
  match tally_phase svc schemaId url w with
  | (Thrown e, w1) => (Thrown e, w1)
  | (Returned counts, w1) =>
      (setSiteRatings
         (Some {| safeCount := fst counts; unsafeCount := snd counts;
                  totalRatings := fst counts + snd counts |}) ;;;
       if truthy_opt (ethAddress env) then
         userAttestation <-
           getLatestAttestationForUser svc schemaId (toLowerCase url)
             (str_of (ethAddress env)) ;;
         match userAttestation with
         | Some a => setUserRating (Some (isSafe (decodedData a)))
         | None => setUserRating None
         end
       else ret tt) w1
  end.
Proof.
  unfold loadSiteRatings_body, tally_phase, bind.
  destruct (getAttestations svc schemaId (toLowerCase url) w) as [[l|e] w1];
    [|reflexivity].
  destruct (countLatest svc schemaId (toLowerCase url) _ 0 0 w1)
    as [[counts|e] w2]; reflexivity.
Qed.

Lemma tally_phase_frame schemaId url (w : W) :
  let w' := snd (tally_phase svc schemaId url w) in
  hook w' = hook w /\ console w' = console w /\ toasts w' = toasts w.
Proof.
  unfold tally_phase, bind, getAttestations, answer.
  destruct (svc_getAttestations svc (io w) schemaId (toLowerCase url))
    as [e|l]; simpl; auto.
  match goal with |- context [countLatest _ _ _ ?us ?a ?b ?x] =>
    exact (countLatest_frame schemaId (toLowerCase url) us a b x) end.
Qed.

(** Without a schema identifier or a url [loadSiteRatings] does nothing. *)
Lemma loadSiteRatings_unconfigured (url : string) (w : W) :
  truthy_opt (SAFETY_RATING_SCHEMA_ID env) = false \/ truthy url = false ->
  loadSiteRatings env svc url w = (Returned tt, w).
Proof.
  unfold loadSiteRatings. intros [-> | ->]; [reflexivity|].
  now rewrite orb_true_r.
Qed.

(** A load whose first phase fails: nothing is published. *)
Lemma loadSiteRatings_tally_failed (url : string) (w : W) e :
  truthy_opt (SAFETY_RATING_SCHEMA_ID env) = true -> truthy url = true ->
  fst (tally_phase svc (str_of (SAFETY_RATING_SCHEMA_ID env)) url
         (loading_world w)) = Thrown e ->
  let w' := snd (loadSiteRatings env svc url w) in
  siteRatings (hook w') = siteRatings (hook w) /\
  userRating (hook w') = userRating (hook w) /\
  loading (hook w') = false /\
  console w' = console w ++ [console_error "Error loading site ratings:" e] /\
  toasts w' = toasts w.
Proof.
  intros Hs Hu Ht. rewrite (loadSiteRatings_run _ _ Hs Hu).
  rewrite loadSiteRatings_body_phases.
  pose proof (tally_phase_frame (str_of (SAFETY_RATING_SCHEMA_ID env)) url
                (loading_world w)) as (Hh & Hc & Hto).
  destruct (tally_phase svc _ url (loading_world w)) as [[counts|e'] w1];
    simpl in *; [discriminate|].
  injection Ht as ->. rewrite Hh, Hc, Hto. auto.
Qed.

(** A load whose first phase succeeds publishes the complete tally; the
    lookup of the viewer's own record decides the own rating. *)
Lemma loadSiteRatings_tally_done (url : string) (w w1 : W) counts :
  truthy_opt (SAFETY_RATING_SCHEMA_ID env) = true -> truthy url = true ->
  tally_phase svc (str_of (SAFETY_RATING_SCHEMA_ID env)) url (loading_world w)
  = (Returned counts, w1) ->
  let w' := snd (loadSiteRatings env svc url w) in
  siteRatings (hook w') = Some (tally_of counts) /\
  loading (hook w') = false /\
  toasts w' = toasts w /\
  (if truthy_opt (ethAddress env) then
     match svc_getLatestAttestationForUser svc (io w1)
             (str_of (SAFETY_RATING_SCHEMA_ID env)) (toLowerCase url)
             (str_of (ethAddress env)) with
     | inr (Some a) =>
         userRating (hook w') = Some (isSafe (decodedData a)) /\
         console w' = console w
     | inr None => userRating (hook w') = None /\ console w' = console w
     | inl e =>
         userRating (hook w') = userRating (hook w) /\
         console w' =
         console w ++ [console_error "Error loading site ratings:" e]
     end
   else userRating (hook w') = userRating (hook w) /\ console w' = console w).
Proof.
  intros Hs Hu Ht. rewrite (loadSiteRatings_run _ _ Hs Hu).
  rewrite loadSiteRatings_body_phases.
  pose proof (tally_phase_frame (str_of (SAFETY_RATING_SCHEMA_ID env)) url
                (loading_world w)) as (Hh & Hc & Hto).
  rewrite Ht in *. simpl in Hh, Hc, Hto.
  unfold bind, setSiteRatings, set_hook. simpl.
  destruct (truthy_opt (ethAddress env)).
  - unfold getLatestAttestationForUser, answer. simpl.
    destruct (svc_getLatestAttestationForUser svc (io w1) _ _ _)
      as [e|[a|]]; simpl; rewrite ?Hh, ?Hc, ?Hto; auto.
  - simpl. rewrite ?Hh, ?Hc, ?Hto. auto.
Qed.

Lemma rateSite_refused (safe : bool) (w : W) :
  rate_refused env (hook w) = true ->
  rateSite env svc safe w =
  (Thrown {| message := "Missing required information to rate site" |}, w).
Proof.
  unfold rate_refused, rateSite, bind, get_hook. intros ->. reflexivity.
Qed.

Lemma rateSite_write_failure (safe : bool) (w : W) e :
  rate_refused env (hook w) = false ->
  svc_createAttestation svc (io w) (str_of (SAFETY_RATING_SCHEMA_ID env))
    (currentUrl (hook w)) {| url := currentUrl (hook w); isSafe := safe |}
  = inl e ->
  rateSite env svc safe w =
  (Thrown e,
   loaded_world
     {| hook := hook w; console := console w;
        toasts := toasts w ++ [rate_error_toast e];
        io := io w ++ [{| ev_call := rate_call env (hook w) safe;
                          ev_ok := false |}] |}).
Proof.
  unfold rate_refused, rateSite. intros Hr Hc.
  unfold bind at 1. unfold get_hook at 1. rewrite Hr.
  unfold bind at 1. unfold setLoading at 1. unfold set_hook at 1.
  unfold try_finally, try_catch.
  unfold bind at 1. unfold createAttestation, answer. simpl.
  rewrite Hc. reflexivity.
Qed.

(** A load against a service that holds [l] and answers lookups with
    [latest]. *)
Lemma loadSiteRatings_completed (url : string) (w : W) l latest :
  truthy_opt (SAFETY_RATING_SCHEMA_ID env) = true -> truthy url = true ->
  (forall tr, svc_getAttestations svc tr
                (str_of (SAFETY_RATING_SCHEMA_ID env)) (toLowerCase url)
              = inr l) ->
  answers svc (str_of (SAFETY_RATING_SCHEMA_ID env)) (toLowerCase url) latest ->
  let w' := snd (loadSiteRatings env svc url w) in
  siteRatings (hook w') =
    Some (tally_of (counted latest (Set_of (map signer l)) 0 0)) /\
  userRating (hook w') =
    (if truthy_opt (ethAddress env)
     then option_map (fun a => isSafe (decodedData a))
            (latest (str_of (ethAddress env)))
     else userRating (hook w)) /\
  console w' = console w /\ toasts w' = toasts w /\ loading (hook w') = false.
Proof.
  intros Hs Hu Hget Hans.
  destruct (tally_phase svc (str_of (SAFETY_RATING_SCHEMA_ID env)) url
              (loading_world w)) as [r w1] eqn:Ht.
  assert (Hr : r = Returned (counted latest (Set_of (map signer l)) 0 0)).
  { apply (f_equal fst) in Ht. simpl in Ht. rewrite <- Ht.
    unfold tally_phase, bind, getAttestations, answer. rewrite Hget.
    simpl. now apply countLatest_answers. }
  subst r.
  pose proof (loadSiteRatings_tally_done _ _ Hs Hu Ht) as (H1 & H2 & H3 & H4).
  repeat split; try assumption.
  - destruct (truthy_opt (ethAddress env)); [|apply H4].
    rewrite Hans in H4. destruct (latest (str_of (ethAddress env))); apply H4.
  - destruct (truthy_opt (ethAddress env)); [|apply H4].
    rewrite Hans in H4. destruct (latest (str_of (ethAddress env))); apply H4.
Qed.

(** The published total is the number of distinct signer strings, as they
    are spelled, when every one of them has a latest record. *)
Lemma loadSiteRatings_total (url : string) (w : W) l latest :
  truthy_opt (SAFETY_RATING_SCHEMA_ID env) = true -> truthy url = true ->
  (forall tr, svc_getAttestations svc tr
                (str_of (SAFETY_RATING_SCHEMA_ID env)) (toLowerCase url)
              = inr l) ->
  answers svc (str_of (SAFETY_RATING_SCHEMA_ID env)) (toLowerCase url) latest ->
  (forall a, In a l -> latest (signer a) <> None) ->
  exists t,
    siteRatings (hook (snd (loadSiteRatings env svc url w))) = Some t /\
    totalRatings t = safeCount t + unsafeCount t /\
    totalRatings t = length (nodup string_dec (map signer l)).
Proof.
  intros Hs Hu Hget Hans Hall.
  destruct (loadSiteRatings_completed _ w Hs Hu Hget Hans) as (H1 & _).
  eexists. split; [exact H1|]. split; [reflexivity|].
  unfold tally_of. simpl. rewrite counted_total.
  - simpl. apply Set_of_length.
  - intros x Hx. apply Set_of_In, in_map_iff in Hx.
    destruct Hx as (a & <- & Ha). now apply Hall.
Qed.

(** A completed load: the own rating of a known identity, when the lookup
    resolves the latest record of a signer as the spec describes it. *)
Lemma loadSiteRatings_own_rating (url : string) (w : W) l address :
  truthy_opt (SAFETY_RATING_SCHEMA_ID env) = true -> truthy url = true ->
  ethAddress env = Some address -> truthy address = true ->
  (forall tr, svc_getAttestations svc tr
                (str_of (SAFETY_RATING_SCHEMA_ID env)) (toLowerCase url)
              = inr l) ->
  answers svc (str_of (SAFETY_RATING_SCHEMA_ID env)) (toLowerCase url)
    (fun user =>
       latestRecordForSigner signer attestTimestamp (toLowerCase user) l) ->
  let own := userRating (hook (snd (loadSiteRatings env svc url w))) in
  (has_record signer (toLowerCase address) l ->
   exists r,
     is_latest signer attestTimestamp (toLowerCase address) l r /\
     own = Some (isSafe (decodedData r))) /\
  (~ has_record signer (toLowerCase address) l -> own = None).
Proof.
  intros Hs Hu Ha Hta Hget Hans.
  destruct (loadSiteRatings_completed _ w Hs Hu Hget Hans) as (_ & H & _).
  simpl. rewrite H, Ha. simpl. rewrite Hta. split.
  - intros Hrec.
    destruct (latest_has_record attestTimestamp Hrec) as (r & -> & Hl).
    now exists r.
  - intros Hno. apply (latest_None signer attestTimestamp) in Hno.
    now rewrite Hno.
Qed.

(** A load by an anonymous viewer leaves the own rating as it was. *)
Lemma loadSiteRatings_anonymous (url : string) (w : W) l latest :
  truthy_opt (SAFETY_RATING_SCHEMA_ID env) = true -> truthy url = true ->
  truthy_opt (ethAddress env) = false ->
  (forall tr, svc_getAttestations svc tr
                (str_of (SAFETY_RATING_SCHEMA_ID env)) (toLowerCase url)
              = inr l) ->
  answers svc (str_of (SAFETY_RATING_SCHEMA_ID env)) (toLowerCase url) latest ->
  userRating (hook (snd (loadSiteRatings env svc url w))) = userRating (hook w).
Proof.
  intros Hs Hu Ha Hget Hans.
  destruct (loadSiteRatings_completed _ w Hs Hu Hget Hans) as (_ & H & _).
  now rewrite H, Ha.
Qed.
End Running.

End SiteRatingsFacts.

(* ================================================================== *)
(** * The statements of the specification *)

(** ** The scenarios *)

(** Three signers rate safe, safe, unsafe, and the first one then rates
    unsafe: one safe rating, two unsafe ones. *)
Example scenario_safety_rating :
  SiteRatings.siteRatings
    (hook (snd (SiteRatings.loadSiteRatings Samples.rater
                  (Samples.rating_service Samples.ratings_three
                     Samples.always_up)
                  "example.com" Samples.fresh_world)))
  = Some {| SiteRatings.safeCount := 1; SiteRatings.unsafeCount := 2;
            SiteRatings.totalRatings := 3 |}.
Proof. reflexivity. Qed.

(** A signer votes up and later down, another one votes up: one upvote, one
    downvote, and the downvote as the own vote of the first signer. *)
Example scenario_comment_vote :
  CommentVotes.countVotes Samples.voter Samples.votes_c1
  = {| CommentVotes.upvotes := 1; CommentVotes.downvotes := 1;
       CommentVotes.userVote := Some (-1)%Z |}.
Proof. reflexivity. Qed.

(** ** Resolution per signer *)

Section VoteResolution.
Import CommentVotes CommentVotesFacts.

(** C1. Per-signer resolution of the vote attestations of a comment: for
    every sequence of records and every signer occurring in it, the
    resolved object holds under that signer (case-folded) exactly one
    record, the first one of maximal timestamp, which is unique; every other
    record of the signer is at most as new; under any reordering of the
    input the held record has the same, maximal timestamp, and it is the same
    record when no other record of the signer shares that timestamp. *)
Theorem C1_latest_wins (l : list Attestation) (s : Attestation) :
  In s l ->
  exists r,
    obj_get (key_of s) (userVotes l) = Some r /\
    is_latest attester attestTimestamp (key_of s) l r /\
    (forall r0, is_latest attester attestTimestamp (key_of s) l r0 -> r0 = r) /\
    count_occ string_dec (obj_keys (userVotes l)) (key_of s) = 1 /\
    (forall x, In x l -> key_of x = key_of s ->
               (attestTimestamp x <= attestTimestamp r)%Z) /\
    (forall l', Permutation l l' ->
       exists r',
         obj_get (key_of s) (userVotes l') = Some r' /\
         attestTimestamp r' = attestTimestamp r /\
         ((forall x, In x l -> key_of x = key_of s ->
                     attestTimestamp x = attestTimestamp r -> x = r) ->
          r' = r)).
Proof.
  intros Hin.
  assert (Hrec : has_record attester (key_of s) l) by (exists s; auto).
  destruct (latest_has_record attestTimestamp Hrec) as (r & Hr & Hlat).
  exists r. rewrite userVotes_get. repeat split; try assumption.
  - intros r0 H0. apply (is_latest_unique H0 Hlat).
  - apply NoDup_count_occ'; [apply userVotes_NoDup|].
    rewrite userVotes_keys, Set_of_In. apply in_map_iff. now exists s.
  - intros x Hx Hk. now apply (is_latest_max Hlat).
  - intros l' HP.
    destruct (latest_has_record attestTimestamp (has_record_perm HP Hrec))
      as (r' & Hr' & Hlat').
    exists r'. rewrite userVotes_get. repeat split; try assumption.
    + apply (is_latest_perm_time HP Hlat Hlat').
    + intros Huniq. destruct (is_latest_In Hlat') as [Hin' Hk'].
      apply Huniq; [|assumption|].
      * now apply (Permutation_in _ (Permutation_sym HP)).
      * apply (is_latest_perm_time HP Hlat Hlat').
Qed.

(** The theorem at the sample votes, for the signer of the first record. *)
Lemma C1_latest_wins_witness :
  In (Samples.vote_att "0xABC" 1 1) Samples.votes_c1 /\
  exists r,
    obj_get "0xabc" (userVotes Samples.votes_c1) = Some r /\
    vote (decodedData r) = (-1)%Z.
Proof.
  assert (Hin : In (Samples.vote_att "0xABC" 1 1) Samples.votes_c1)
    by (left; reflexivity).
  split; [exact Hin|].
  destruct (C1_latest_wins Samples.votes_c1 (Samples.vote_att "0xABC" 1 1) Hin)
    as (r & Hget & _).
  exists r. split; [exact Hget|].
  vm_compute in Hget. injection Hget as <-. reflexivity.
Defined.
End VoteResolution.

(** ** Signers that differ in letter case *)

(** C2, at the input on which the site-safety pipeline departs from it: two
    safe ratings whose signers differ only in letter case. The comment-vote
    pipeline folds such signers into one entry and one unit; [loadSiteRatings]
    builds its [Set] from the signers as they are spelled, keeps both and
    publishes two units for the one identity. *)
Theorem C2_site_signers_not_case_folded :
  let w' :=
    snd (SiteRatings.loadSiteRatings Samples.rater
           (Samples.rating_service Samples.ratings_mixed_case Samples.always_up)
           "example.com" Samples.fresh_world) in
  toLowerCase "0xABC" = toLowerCase "0xabc" /\
  Set_of (map SiteRatings.signer Samples.ratings_mixed_case)
    = ["0xABC"; "0xabc"] /\
  SiteRatings.siteRatings (hook w') =
    Some {| SiteRatings.safeCount := 2; SiteRatings.unsafeCount := 0;
            SiteRatings.totalRatings := 2 |} /\
  obj_keys (CommentVotes.userVotes
              [Samples.vote_att "0xABC" 1 1; Samples.vote_att "0xabc" 2 1])
    = ["0xabc"] /\
  CommentVotes.upvotes
    (CommentVotes.countVotes Samples.voter
       [Samples.vote_att "0xABC" 1 1; Samples.vote_att "0xabc" 2 1]) = 1.
Proof. vm_compute. repeat split. Qed.

(** C3, at the same input: the published site tally satisfies
    [totalRatings = safeCount + unsafeCount], but the total is 2 where the
    records have one distinct case-folded signer. *)
Theorem C3_site_total_exceeds_distinct_signers :
  exists t,
    SiteRatings.siteRatings
      (hook (snd (SiteRatings.loadSiteRatings Samples.rater
                    (Samples.rating_service Samples.ratings_mixed_case
                       Samples.always_up)
                    "example.com" Samples.fresh_world))) = Some t /\
    SiteRatings.totalRatings t =
      SiteRatings.safeCount t + SiteRatings.unsafeCount t /\
    SiteRatings.totalRatings t = 2 /\
    distinct_signers SiteRatings.signer Samples.ratings_mixed_case = 1.
Proof. eexists. vm_compute. repeat split. Qed.

(** ** Own judgment *)

(** C4. After a completed load with a known identity, the own judgment is
    the payload of the latest record of that identity, and none when the
    identity has no record: [userVote] in every entry of the vote map, and
    [userRating] of the provider, whose lookup resolves the latest record of
    a signer as the spec describes that service operation. *)
Theorem C4_own_judgment :
  (forall (env : CommentVotes.Env) svc recs ids w address,
      truthy_opt (CommentVotes.VOTE_SCHEMA_ID env) = true ->
      CommentVotes.ethAddress env = Some address ->
      CommentVotes.serves svc (str_of (CommentVotes.VOTE_SCHEMA_ID env))
        recs ids ->
      exists voteMap,
        fst (CommentVotes.getVotesForComments env svc ids w)
          = Returned voteMap /\
        forall c, In c ids ->
          exists entry,
            obj_get c voteMap = Some entry /\
            (has_record CommentVotes.attester (toLowerCase address) (recs c) ->
             exists r,
               is_latest CommentVotes.attester CommentVotes.attestTimestamp
                 (toLowerCase address) (recs c) r /\
               CommentVotes.userVote entry =
                 Some (CommentVotes.vote (CommentVotes.decodedData r))) /\
            (~ has_record CommentVotes.attester (toLowerCase address) (recs c)
             -> CommentVotes.userVote entry = None))
  /\
  (forall (env : SiteRatings.Env) svc l url w address,
      truthy_opt (SiteRatings.SAFETY_RATING_SCHEMA_ID env) = true ->
      truthy url = true ->
      SiteRatings.ethAddress env = Some address -> truthy address = true ->
      (forall tr,
          svc_getAttestations svc tr
            (str_of (SiteRatings.SAFETY_RATING_SCHEMA_ID env))
            (toLowerCase url) = inr l) ->
      SiteRatings.answers svc
        (str_of (SiteRatings.SAFETY_RATING_SCHEMA_ID env)) (toLowerCase url)
        (fun user =>
           latestRecordForSigner SiteRatings.signer
             SiteRatings.attestTimestamp (toLowerCase user) l) ->
      let own :=
        SiteRatings.userRating
          (hook (snd (SiteRatings.loadSiteRatings env svc url w))) in
      (has_record SiteRatings.signer (toLowerCase address) l ->
       exists r,
         is_latest SiteRatings.signer SiteRatings.attestTimestamp
           (toLowerCase address) l r /\
         own = Some (SiteRatings.isSafe (SiteRatings.decodedData r))) /\
      (~ has_record SiteRatings.signer (toLowerCase address) l ->
       own = None)).
Proof.
  split.
  - intros env svc recs ids w address.
    apply CommentVotesFacts.getVotesForComments_own_vote.
  - intros env svc l url w address.
    apply SiteRatingsFacts.loadSiteRatings_own_rating.
Qed.

(** The theorem at the sample data: the voter's latest vote is the
    downvote, and the rater's latest rating is the unsafe one. *)
Lemma C4_own_judgment_witness :
  (exists voteMap,
      fst (CommentVotes.getVotesForComments Samples.voter
             (Samples.vote_service Samples.always_up) ["c1"]
             Samples.vote_world) = Returned voteMap /\
      option_map CommentVotes.userVote (obj_get "c1" voteMap)
        = Some (Some (-1)%Z)) /\
  SiteRatings.userRating
    (hook (snd (SiteRatings.loadSiteRatings Samples.rater
                  (Samples.rating_service Samples.ratings_three
                     Samples.always_up)
                  "example.com" Samples.fresh_world))) = Some false.
Proof.
  split.
  - assert (Hserves : CommentVotes.serves
                        (Samples.vote_service Samples.always_up) "0x1"
                        (fun _ => Samples.votes_c1) ["c1"])
      by (intros tr c _; reflexivity).
    pose proof (proj1 C4_own_judgment Samples.voter
                  (Samples.vote_service Samples.always_up)
                  (fun _ => Samples.votes_c1) ["c1"] Samples.vote_world
                  "0xAbC" eq_refl eq_refl Hserves) as (voteMap & Hrun & _).
    exists voteMap. split; [exact Hrun|].
    vm_compute in Hrun. injection Hrun as <-. reflexivity.
  - assert (Hanswers : SiteRatings.answers
                         (Samples.rating_service Samples.ratings_three
                            Samples.always_up) "0x1" "example.com"
                         (fun user =>
                            latestRecordForSigner SiteRatings.signer
                              SiteRatings.attestTimestamp (toLowerCase user)
                              Samples.ratings_three))
      by (intros tr user; reflexivity).
    pose proof (proj2 C4_own_judgment Samples.rater
                  (Samples.rating_service Samples.ratings_three
                     Samples.always_up)
                  Samples.ratings_three "example.com" Samples.fresh_world
                  "0xA" eq_refl eq_refl eq_refl eq_refl
                  (fun tr => eq_refl) Hanswers) as [Hsome _].
    destruct Hsome as (r & _ & Hown).
    + exists (Samples.rating "0xa" 1 true). split; [|reflexivity].
      left. reflexivity.
    + vm_compute. reflexivity.
Defined.

(** ** Missing configuration *)

(** C5 as stated fails for the site-safety pipeline: without a schema
    identifier [loadSiteRatings] returns at its guard and publishes nothing,
    so the tally of a freshly mounted provider stays [null]; it is not the
    zero tally. *)
Lemma C5_no_zero_tally_published :
  SiteRatings.siteRatings
    (hook (snd (SiteRatings.loadSiteRatings Samples.unconfigured_rater
                  (Samples.rating_service Samples.ratings_three
                     Samples.always_up)
                  "example.com" Samples.fresh_world)))
  <> Some {| SiteRatings.safeCount := 0; SiteRatings.unsafeCount := 0;
             SiteRatings.totalRatings := 0 |}.
Proof. vm_compute. discriminate. Qed.

(** C5, amended. Without its schema identifier a pipeline calls the
    attestation service not at all, throws nothing and shows no toast:
    [loadSiteRatings] returns and leaves the whole state as it was, and
    [getVotesForComments] returns the empty vote map, having written one
    line to the console. *)
Theorem C5_missing_schema_is_a_no_op :
  (forall (env : SiteRatings.Env) svc url w,
      truthy_opt (SiteRatings.SAFETY_RATING_SCHEMA_ID env) = false ->
      SiteRatings.loadSiteRatings env svc url w = (Returned tt, w))
  /\
  (forall (env : CommentVotes.Env) svc ids w,
      truthy_opt (CommentVotes.VOTE_SCHEMA_ID env) = false ->
      let w' := snd (CommentVotes.getVotesForComments env svc ids w) in
      fst (CommentVotes.getVotesForComments env svc ids w) = Returned [] /\
      io w' = io w /\ hook w' = hook w /\ toasts w' = toasts w /\
      console w' =
        console w ++ [console_log "VOTE_SCHEMA_ID is not defined"]).
Proof.
  split.
  - intros env svc url w H.
    apply SiteRatingsFacts.loadSiteRatings_unconfigured. now left.
  - intros env svc ids w H.
    rewrite CommentVotesFacts.getVotesForComments_unconfigured by exact H.
    simpl. auto.
Qed.

(** The theorem at the unconfigured sample environments. *)
Lemma C5_missing_schema_is_a_no_op_witness :
  SiteRatings.loadSiteRatings Samples.unconfigured_rater
    (Samples.rating_service Samples.ratings_three Samples.always_up)
    "example.com" Samples.ready_world = (Returned tt, Samples.ready_world)
  /\
  fst (CommentVotes.getVotesForComments Samples.unconfigured_voter
         (Samples.vote_service Samples.always_up) ["c1"] Samples.vote_world)
  = Returned [].
Proof.
  split.
  - exact (proj1 C5_missing_schema_is_a_no_op Samples.unconfigured_rater
             (Samples.rating_service Samples.ratings_three Samples.always_up)
             "example.com" Samples.ready_world eq_refl).
  - exact (proj1 (proj2 C5_missing_schema_is_a_no_op
                    Samples.unconfigured_voter
                    (Samples.vote_service Samples.always_up) ["c1"]
                    Samples.vote_world eq_refl)).
Defined.

(** ** Submissions *)

(** C6 as stated fails for [voteOnComment]: a vote without a known identity
    is refused, yet the call completes as an accepted one does; nothing is
    thrown to the caller. *)
Lemma C6_refused_vote_is_not_thrown :
  CommentVotes.vote_refused Samples.anonymous_voter "c1" = true /\
  fst (CommentVotes.voteOnComment Samples.anonymous_voter
         (Samples.vote_service Samples.always_up) "c1" true Samples.vote_world)
  = fst (CommentVotes.voteOnComment Samples.voter
           (Samples.vote_service Samples.always_up) "c1" true
           Samples.vote_world) /\
  ~ (exists e,
        fst (CommentVotes.voteOnComment Samples.anonymous_voter
               (Samples.vote_service Samples.always_up) "c1" true
               Samples.vote_world) = Thrown e).
Proof.
  vm_compute. repeat split. intros [e H]. discriminate.
Qed.

(** C6, amended. A submission that lacks the schema identifier, the subject
    or the identity ([rateSite] also asks for the e-mail address of the
    user) is refused before any call to the attestation service: [rateSite]
    throws to its caller and changes nothing; [voteOnComment] shows one error
    toast and completes normally. *)
Theorem C6_refused_submissions :
  (forall (env : SiteRatings.Env) svc safe w,
      truthy_opt (SiteRatings.SAFETY_RATING_SCHEMA_ID env) = false \/
      truthy (SiteRatings.currentUrl (hook w)) = false \/
      truthy_opt (SiteRatings.ethAddress env) = false \/
      truthy_opt (SiteRatings.email_of (SiteRatings.userData env)) = false ->
      SiteRatings.rateSite env svc safe w =
      (Thrown {| message := "Missing required information to rate site" |},
       w))
  /\
  (forall (env : CommentVotes.Env) svc commentId isUpvote w,
      truthy_opt (CommentVotes.VOTE_SCHEMA_ID env) = false \/
      truthy commentId = false \/
      truthy_opt (CommentVotes.ethAddress env) = false ->
      let w' :=
        snd (CommentVotes.voteOnComment env svc commentId isUpvote w) in
      fst (CommentVotes.voteOnComment env svc commentId isUpvote w)
        = Returned tt /\
      io w' = io w /\ hook w' = hook w /\ console w' = console w /\
      toasts w' =
        toasts w ++
        [{| title := "Error"; description := "Cannot vote: missing data";
            status := "error"; duration := 3000; isClosable := true |}]).
Proof.
  split.
  - intros env svc safe w H.
    apply SiteRatingsFacts.rateSite_refused. unfold SiteRatings.rate_refused.
    destruct H as [-> | [-> | [-> | ->]]]; simpl;
      rewrite ?orb_true_r; reflexivity.
  - intros env svc commentId isUpvote w H.
    rewrite CommentVotesFacts.voteOnComment_refused.
    + simpl. auto.
    + unfold CommentVotes.vote_refused.
      destruct H as [-> | [-> | ->]]; simpl;
        rewrite ?orb_true_r; reflexivity.
Qed.

(** The theorem for an anonymous viewer who rates and votes. *)
Lemma C6_refused_submissions_witness :
  SiteRatings.rateSite Samples.anonymous_viewer
    (Samples.rating_service Samples.ratings_three Samples.always_up)
    true Samples.ready_world
  = (Thrown {| message := "Missing required information to rate site" |},
     Samples.ready_world)
  /\
  io (snd (CommentVotes.voteOnComment Samples.anonymous_voter
             (Samples.vote_service Samples.always_up) "c1" true
             Samples.vote_world)) = [].
Proof.
  split.
  - apply (proj1 C6_refused_submissions). right. right. left. reflexivity.
  - apply (proj2 C6_refused_submissions Samples.anonymous_voter
             (Samples.vote_service Samples.always_up) "c1" true
             Samples.vote_world).
    right. right. reflexivity.
Defined.

(** C7. A submission that passes its guard and whose write is rejected by
    the attestation service leaves the published tally and the own judgment
    as they were and shows exactly one toast, an error: [rateSite] keeps
    [siteRatings] and [userRating] and throws the error on; [voteOnComment]
    keeps the state of its hook. *)
Theorem C7_failed_write_keeps_state :
  (forall (env : SiteRatings.Env) svc safe w e,
      SiteRatings.rate_refused env (hook w) = false ->
      svc_createAttestation svc (io w)
        (str_of (SiteRatings.SAFETY_RATING_SCHEMA_ID env))
        (SiteRatings.currentUrl (hook w))
        {| SiteRatings.url := SiteRatings.currentUrl (hook w);
           SiteRatings.isSafe := safe |} = inl e ->
      let w' := snd (SiteRatings.rateSite env svc safe w) in
      SiteRatings.siteRatings (hook w') = SiteRatings.siteRatings (hook w) /\
      SiteRatings.userRating (hook w') = SiteRatings.userRating (hook w) /\
      fst (SiteRatings.rateSite env svc safe w) = Thrown e /\
      exists t, toasts w' = toasts w ++ [t] /\ status t = "error" /\
                description t = ("Failed to rate site: " ++ message e)%string)
  /\
  (forall (env : CommentVotes.Env) svc commentId (isUpvote : bool) w e,
      CommentVotes.vote_refused env commentId = false ->
      svc_createAttestation svc (io w)
        (str_of (CommentVotes.VOTE_SCHEMA_ID env)) commentId
        {| CommentVotes.commentId := commentId;
           CommentVotes.vote := if isUpvote then 1%Z else (-1)%Z |} = inl e ->
      let w' :=
        snd (CommentVotes.voteOnComment env svc commentId isUpvote w) in
      hook w' = hook w /\
      exists t, toasts w' = toasts w ++ [t] /\ status t = "error" /\
                description t = ("Failed to vote: " ++ message e)%string).
Proof.
  split.
  - intros env svc safe w e Hg Hc.
    rewrite (@SiteRatingsFacts.rateSite_write_failure env svc safe w e Hg Hc). simpl.
    repeat split. eexists. repeat split.
  - intros env svc commentId isUpvote w e Hg Hc.
    rewrite (@CommentVotesFacts.voteOnComment_write_failure env svc commentId isUpvote w e Hg Hc). simpl.
    split; [reflexivity|]. eexists. repeat split.
Qed.

(** The theorem for writes that meet a service that is down: the tally of
    two safe ratings and an unsafe one stays. *)
Lemma C7_failed_write_keeps_state_witness :
  SiteRatings.siteRatings
    (hook (snd (SiteRatings.rateSite Samples.rater
                  (Samples.rating_service Samples.ratings_three
                     (Samples.down_at 0))
                  false Samples.ready_world)))
  = Some {| SiteRatings.safeCount := 2; SiteRatings.unsafeCount := 1;
            SiteRatings.totalRatings := 3 |}
  /\
  hook (snd (CommentVotes.voteOnComment Samples.voter
               (Samples.vote_service (Samples.down_at 0)) "c1" true
               Samples.vote_world)) = CommentVotes.initial.
Proof.
  split.
  - apply (proj1 C7_failed_write_keeps_state Samples.rater
             (Samples.rating_service Samples.ratings_three
                (Samples.down_at 0))
             false Samples.ready_world networkError eq_refl eq_refl).
  - apply (proj2 C7_failed_write_keeps_state Samples.voter
             (Samples.vote_service (Samples.down_at 0)) "c1" true
             Samples.vote_world networkError eq_refl eq_refl).
Defined.

(** ** Failed loads *)

(** C8 as stated fails: in this load of [loadSiteRatings] the lookup of the
    viewer's own record fails, after the tally was published; the error is
    logged, and the tally of two safe ratings and an unsafe one has been
    replaced. *)
Lemma C8_tally_replaced_in_failed_load :
  let w' :=
    snd (SiteRatings.loadSiteRatings Samples.newcomer
           (Samples.rating_service Samples.ratings_mixed_case
              (Samples.down_at 3))
           "example.com" Samples.ready_world) in
  io Samples.ready_world = [] /\
  existsb (fun ev => negb (ev_ok ev)) (io w') = true /\
  SiteRatings.siteRatings (hook w')
  <> SiteRatings.siteRatings (hook Samples.ready_world).
Proof.
  vm_compute. repeat split. discriminate.
Qed.

(** C8, amended. A load in which a fetch fails logs the error. In
    [loadSiteRatings], when the fetch of the records or a lookup of the
    counting loop fails, the published tally and own judgment stay as they
    were; when only the closing lookup of the viewer's own record fails, the
    own judgment stays and the tally is the complete one just computed.
    [getVotesForComments] holds no tally: it sets its error state and returns
    the empty vote map, never a partial one. *)
Theorem C8_failed_fetch :
  (forall (env : SiteRatings.Env) svc url w e,
      truthy_opt (SiteRatings.SAFETY_RATING_SCHEMA_ID env) = true ->
      truthy url = true ->
      svc_getAttestations svc (io w)
        (str_of (SiteRatings.SAFETY_RATING_SCHEMA_ID env)) (toLowerCase url)
      = inl e \/
      fst (SiteRatings.tally_phase svc
             (str_of (SiteRatings.SAFETY_RATING_SCHEMA_ID env)) url
             (SiteRatings.loading_world w)) = Thrown e ->
      let w' := snd (SiteRatings.loadSiteRatings env svc url w) in
      SiteRatings.siteRatings (hook w') = SiteRatings.siteRatings (hook w) /\
      SiteRatings.userRating (hook w') = SiteRatings.userRating (hook w) /\
      console w' =
        console w ++ [console_error "Error loading site ratings:" e])
  /\
  (forall (env : SiteRatings.Env) svc url w w1 counts e,
      truthy_opt (SiteRatings.SAFETY_RATING_SCHEMA_ID env) = true ->
      truthy url = true ->
      truthy_opt (SiteRatings.ethAddress env) = true ->
      SiteRatings.tally_phase svc
        (str_of (SiteRatings.SAFETY_RATING_SCHEMA_ID env)) url
        (SiteRatings.loading_world w) = (Returned counts, w1) ->
      svc_getLatestAttestationForUser svc (io w1)
        (str_of (SiteRatings.SAFETY_RATING_SCHEMA_ID env)) (toLowerCase url)
        (str_of (SiteRatings.ethAddress env)) = inl e ->
      let w' := snd (SiteRatings.loadSiteRatings env svc url w) in
      SiteRatings.siteRatings (hook w') =
        Some {| SiteRatings.safeCount := fst counts;
                SiteRatings.unsafeCount := snd counts;
                SiteRatings.totalRatings := fst counts + snd counts |} /\
      SiteRatings.userRating (hook w') = SiteRatings.userRating (hook w) /\
      console w' =
        console w ++ [console_error "Error loading site ratings:" e])
  /\
  (forall (env : CommentVotes.Env) svc ids w evs,
      truthy_opt (CommentVotes.VOTE_SCHEMA_ID env) = true ->
      io (snd (CommentVotes.getVotesForComments env svc ids w))
        = io w ++ evs ->
      Exists failed_call evs ->
      let w' := snd (CommentVotes.getVotesForComments env svc ids w) in
      fst (CommentVotes.getVotesForComments env svc ids w) = Returned [] /\
      hook w' =
        {| CommentVotes.loading := false;
           CommentVotes.error := Some "Failed to fetch votes" |} /\
      exists e,
        console w' = console w ++ [console_error "Error fetching votes:" e]).
Proof.
  split; [|split].
  - intros env svc url w e Hs Hu H.
    assert (Ht : fst (SiteRatings.tally_phase svc
                        (str_of (SiteRatings.SAFETY_RATING_SCHEMA_ID env))
                        url (SiteRatings.loading_world w)) = Thrown e).
    { destruct H as [H|H]; [|exact H].
      unfold SiteRatings.tally_phase, bind, getAttestations, answer. simpl.
      now rewrite H. }
    destruct (@SiteRatingsFacts.loadSiteRatings_tally_failed env svc url w e Hs Hu Ht)
      as (H1 & H2 & _ & H3 & _).
    auto.
  - intros env svc url w w1 counts e Hs Hu Ha Ht Hl.
    pose proof (@SiteRatingsFacts.loadSiteRatings_tally_done env svc url w w1
                  counts Hs Hu Ht) as (H1 & _ & _ & H2).
    rewrite Ha, Hl in H2. destruct H2 as [H2 H3]. auto.
  - intros env svc ids w evs Hs Hio Hf.
    destruct (@CommentVotesFacts.getVotesForComments_failed env svc ids w evs Hs Hio
                Hf)
      as (e & w2 & Hrun).
    rewrite Hrun. simpl. repeat split. now exists e.
Qed.

(** The theorem at loads that meet a service that is down for the first
    call. *)
Lemma C8_failed_fetch_witness :
  SiteRatings.siteRatings
    (hook (snd (SiteRatings.loadSiteRatings Samples.rater
                  (Samples.rating_service Samples.ratings_mixed_case
                     (Samples.down_at 0))
                  "example.com" Samples.ready_world)))
  = Some {| SiteRatings.safeCount := 2; SiteRatings.unsafeCount := 1;
            SiteRatings.totalRatings := 3 |}
  /\
  fst (CommentVotes.getVotesForComments Samples.voter
         (Samples.vote_service (Samples.down_at 0)) ["c1"] Samples.vote_world)
  = Returned [].
Proof.
  split.
  - apply (proj1 C8_failed_fetch Samples.rater
             (Samples.rating_service Samples.ratings_mixed_case
                (Samples.down_at 0))
             "example.com" Samples.ready_world networkError eq_refl eq_refl).
    left. reflexivity.
  - apply (proj2 (proj2 C8_failed_fetch) Samples.voter
             (Samples.vote_service (Samples.down_at 0)) ["c1"]
             Samples.vote_world
             [{| ev_call := CallGetAttestations "0x1" "c1";
                 ev_ok := false |}] eq_refl eq_refl).
    left. reflexivity.
Defined.

(** ** Anonymous viewers *)

(** C9, at the input on which [loadSiteRatings] departs from it: the viewer
    has logged out of a provider that shows the previous identity's safe
    rating. The load publishes the tally, and the own rating is still that
    of the previous identity. *)
Theorem C9_own_rating_outlives_identity :
  let w' :=
    snd (SiteRatings.loadSiteRatings Samples.anonymous_viewer
           (Samples.rating_service Samples.ratings_three Samples.always_up)
           "example.com" Samples.ready_world) in
  SiteRatings.ethAddress Samples.anonymous_viewer = None /\
  SiteRatings.siteRatings (hook w') =
    Some {| SiteRatings.safeCount := 1; SiteRatings.unsafeCount := 2;
            SiteRatings.totalRatings := 3 |} /\
  SiteRatings.userRating (hook w') = Some true /\
  CommentVotes.userVote
    (CommentVotes.countVotes Samples.anonymous_voter Samples.votes_c1) = None.
Proof. vm_compute. repeat split. Qed.

(** ** Completion of [voteOnComment] *)

(** C10. [voteOnComment] completes normally on every input. A refused vote
    shows one error toast; a vote whose write fails writes the error to the
    console and shows one error toast. [rateSite] throws in both cases: its
    own error when it refuses, the error of the service when the write
    fails. *)
Theorem C10_voteOnComment_never_rejects :
  (forall (env : CommentVotes.Env) svc commentId isUpvote w,
      fst (CommentVotes.voteOnComment env svc commentId isUpvote w)
      = Returned tt)
  /\
  (forall (env : CommentVotes.Env) svc commentId isUpvote w,
      CommentVotes.vote_refused env commentId = true ->
      let w' :=
        snd (CommentVotes.voteOnComment env svc commentId isUpvote w) in
      console w' = console w /\
      toasts w' =
        toasts w ++ [CommentVotes.vote_error_toast "Cannot vote: missing data"])
  /\
  (forall (env : CommentVotes.Env) svc commentId (isUpvote : bool) w e,
      CommentVotes.vote_refused env commentId = false ->
      svc_createAttestation svc (io w)
        (str_of (CommentVotes.VOTE_SCHEMA_ID env)) commentId
        {| CommentVotes.commentId := commentId;
           CommentVotes.vote := if isUpvote then 1%Z else (-1)%Z |} = inl e ->
      let w' :=
        snd (CommentVotes.voteOnComment env svc commentId isUpvote w) in
      console w' = console w ++ [console_error "Error voting on comment:" e]
      /\
      toasts w' =
        toasts w ++
        [CommentVotes.vote_error_toast ("Failed to vote: " ++ message e)])
  /\
  (forall (env : SiteRatings.Env) svc safe w,
      SiteRatings.rate_refused env (hook w) = true ->
      fst (SiteRatings.rateSite env svc safe w) =
      Thrown {| message := "Missing required information to rate site" |})
  /\
  (forall (env : SiteRatings.Env) svc safe w e,
      SiteRatings.rate_refused env (hook w) = false ->
      svc_createAttestation svc (io w)
        (str_of (SiteRatings.SAFETY_RATING_SCHEMA_ID env))
        (SiteRatings.currentUrl (hook w))
        {| SiteRatings.url := SiteRatings.currentUrl (hook w);
           SiteRatings.isSafe := safe |} = inl e ->
      fst (SiteRatings.rateSite env svc safe w) = Thrown e).
Proof.
  split; [|split; [|split; [|split]]].
  - intros env svc commentId isUpvote w.
    apply CommentVotesFacts.voteOnComment_returns.
  - intros env svc commentId isUpvote w Hg.
    rewrite CommentVotesFacts.voteOnComment_refused by exact Hg.
    simpl. auto.
  - intros env svc commentId isUpvote w e Hg Hc.
    rewrite (@CommentVotesFacts.voteOnComment_write_failure
               env svc commentId isUpvote w e Hg Hc).
    simpl. auto.
  - intros env svc safe w Hg.
    now rewrite SiteRatingsFacts.rateSite_refused.
  - intros env svc safe w e Hg Hc.
    now rewrite (@SiteRatingsFacts.rateSite_write_failure
                   env svc safe w e Hg Hc).
Qed.

(** The theorem for a vote and a rating that meet a service that is down. *)
Lemma C10_voteOnComment_never_rejects_witness :
  fst (CommentVotes.voteOnComment Samples.voter
         (Samples.vote_service (Samples.down_at 0)) "c1" true
         Samples.vote_world) = Returned tt
  /\
  fst (SiteRatings.rateSite Samples.rater
         (Samples.rating_service Samples.ratings_three (Samples.down_at 0))
         true Samples.ready_world) = Thrown networkError.
Proof.
  split.
  - apply (proj1 C10_voteOnComment_never_rejects).
  - apply (proj2 (proj2 (proj2 (proj2 C10_voteOnComment_never_rejects)))
             Samples.rater
             (Samples.rating_service Samples.ratings_three (Samples.down_at 0))
             true Samples.ready_world networkError eq_refl eq_refl).
Defined.

(* ================================================================== *)
(** * Further properties of the code *)

(** ** Comment votes *)

Module CommentVotesMore.
Import CommentVotes CommentVotesFacts.

Lemma obj_set_fresh (V : Type) k (v : V) o :
  ~ In k (obj_keys o) -> obj_set k v o = o ++ [(k, v)].
Proof.
  induction o as [|[k' v'] o IH]; simpl; [reflexivity|].
  intros H. destruct (String.eqb k k') eqn:E.
  - apply String.eqb_eq in E. subst. tauto.
  - rewrite IH; tauto.
Qed.

Lemma obj_get_In_iff (V : Type) k (v : V) o :
  NoDup (obj_keys o) -> (In (k, v) o <-> obj_get k o = Some v).
Proof.
  induction o as [|[k' v'] o IH]; simpl; intros Hnd.
  - split; [tauto | discriminate].
  - inversion Hnd as [|? ? Hnotin Hnd']; subst.
    destruct (String.eqb k k') eqn:E.
    + apply String.eqb_eq in E. subst k'. split.
      * intros [[= ->]|H]; [reflexivity|].
        destruct Hnotin. apply in_map_iff. now exists (k, v).
      * intros [= ->]. now left.
    + apply String.eqb_neq in E. rewrite <- (IH Hnd'). split.
      * intros [[= -> ->]|H]; [congruence | assumption].
      * auto.
Qed.

(** Feeding the values of a keyed object back into [reduce] rebuilds it
    behind what was already there. *)
Lemma reduce_values (o acc : JsObject Attestation) :
  keyed o -> NoDup (obj_keys acc ++ obj_keys o) ->
  fold_left reduce_step (obj_values o) acc = acc ++ o.
Proof.
  revert acc. induction o as [|[k v] o IH]; intros acc Hk Hnd; simpl.
  - now rewrite app_nil_r.
  - assert (Hkv : k = key_of v) by (apply Hk; now left).
    assert (Hk' : keyed o) by (intros k2 v2 H; apply Hk; now right).
    assert (Hfresh : ~ In k (obj_keys acc)).
    { simpl in Hnd. apply NoDup_remove_2 in Hnd.
      intros H. apply Hnd, in_app_iff. now left. }
    assert (Hstep : reduce_step acc v = acc ++ [(k, v)]).
    { unfold reduce_step. fold (key_of v). rewrite <- Hkv.
      apply obj_get_None_keys in Hfresh. rewrite Hfresh.
      apply obj_set_fresh. now apply obj_get_None_keys. }
    rewrite Hstep, IH; [now rewrite <- app_assoc | assumption |].
    unfold obj_keys in *. rewrite map_app, <- app_assoc. exact Hnd.
Qed.

(** X1. Resolution is idempotent: resolving the records that a resolution
    kept gives the same object, signer for signer and in the same order, and
    so the same entry of the vote map. *)
Theorem resolution_idempotent (env : Env) (l : list Attestation) :
  userVotes (obj_values (userVotes l)) = userVotes l /\
  countVotes env (obj_values (userVotes l)) = countVotes env l.
Proof.
  assert (H : userVotes (obj_values (userVotes l)) = userVotes l).
  { unfold userVotes at 1. rewrite reduce_values.
    - reflexivity.
    - apply userVotes_keyed.
    - apply userVotes_NoDup. }
  split; [exact H|]. unfold countVotes. now rewrite H.
Qed.

(** *** Independence of the order of the records *)

Lemma latest_perm (l l' : list Attestation) k :
  distinct_times l -> Permutation l l' -> latest k l' = latest k l.
Proof.
  intros Hd HP.
  destruct (latest k l) as [r|] eqn:E.
  - pose proof (latest_Some _ _ _ _ E) as Hl.
    assert (Hrec : has_record attester k l').
    { destruct (is_latest_In Hl) as [Hin Hk]. exists r. split; [|exact Hk].
      now apply (Permutation_in _ HP). }
    destruct (latest_has_record attestTimestamp Hrec) as (r' & -> & Hl').
    f_equal. destruct (is_latest_In Hl) as [Hin Hk].
    destruct (is_latest_In Hl') as [Hin' Hk'].
    apply Hd.
    + now apply (Permutation_in _ (Permutation_sym HP)).
    + assumption.
    + unfold key_of. congruence.
    + apply (is_latest_perm_time HP Hl Hl').
  - apply latest_None. apply latest_None in E. intros H. apply E.
    apply (has_record_perm (Permutation_sym HP) H).
Qed.

Lemma userVotes_perm (l l' : list Attestation) :
  distinct_times l -> Permutation l l' ->
  Permutation (userVotes l) (userVotes l').
Proof.
  intros Hd HP. apply NoDup_Permutation.
  - apply (NoDup_map_inv fst), userVotes_NoDup.
  - apply (NoDup_map_inv fst), userVotes_NoDup.
  - intros [k v].
    rewrite (@obj_get_In_iff _ k v _ (userVotes_NoDup l)).
    rewrite (@obj_get_In_iff _ k v _ (userVotes_NoDup l')).
    now rewrite !userVotes_get, (@latest_perm l l' k Hd HP).
Qed.

(** The two counters depend on the multiset of the counted records only. *)
Lemma count_counters_perm (env : Env) vals vals' :
  Permutation vals vals' ->
  forall e e',
    upvotes e = upvotes e' -> downvotes e = downvotes e' ->
    upvotes (fold_left (count_step env) vals e) =
      upvotes (fold_left (count_step env) vals' e') /\
    downvotes (fold_left (count_step env) vals e) =
      downvotes (fold_left (count_step env) vals' e').
Proof.
  induction 1 as [|x l l' HP IH|x y l|l1 l2 l3 HP1 IH1 HP2 IH2];
    intros e e' Hu Hd; simpl.
  - auto.
  - apply IH; simpl; rewrite ?Hu, ?Hd; reflexivity.
  - assert (G : forall l e e',
               upvotes e = upvotes e' -> downvotes e = downvotes e' ->
               upvotes (fold_left (count_step env) l e) =
                 upvotes (fold_left (count_step env) l e') /\
               downvotes (fold_left (count_step env) l e) =
                 downvotes (fold_left (count_step env) l e')).
    { clear. induction l as [|a l IH]; intros e e' Hu Hd; simpl; [auto|].
      apply IH; simpl; rewrite ?Hu, ?Hd; reflexivity. }
    apply G; simpl; rewrite ?Hu, ?Hd;
      destruct (vote (decodedData x) =? 1)%Z,
               (vote (decodedData y) =? 1)%Z,
               (vote (decodedData x) =? -1)%Z,
               (vote (decodedData y) =? -1)%Z; reflexivity.
  - destruct (IH1 e e' Hu Hd) as [H1 H2].
    destruct (IH2 e' e' eq_refl eq_refl) as [H3 H4].
    split; congruence.
Qed.

(** X2. The entry of a comment does not depend on the order in which its
    attestations arrive, when no signer has two different records of one
    timestamp. *)
Theorem countVotes_order_independent (env : Env) (l l' : list Attestation) :
  distinct_times l -> Permutation l l' ->
  countVotes env l' = countVotes env l.
Proof.
  intros Hd HP.
  assert (Hvals : Permutation (obj_values (userVotes l'))
                              (obj_values (userVotes l))).
  { apply Permutation_map, Permutation_sym. now apply userVotes_perm. }
  destruct (@count_counters_perm env _ _ Hvals
              {| upvotes := 0; downvotes := 0; userVote := None |}
              {| upvotes := 0; downvotes := 0; userVote := None |}
              eq_refl eq_refl) as [Hu Hdn].
  assert (Huv : userVote (countVotes env l') = userVote (countVotes env l)).
  { destruct (ethAddress env) as [address|] eqn:Ha.
    - rewrite !(countVotes_userVote _ _ Ha).
      now rewrite (@latest_perm l l' _ Hd HP).
    - now rewrite !countVotes_userVote_anonymous. }
  fold (countVotes env l') in Hu, Hdn. fold (countVotes env l) in Hu, Hdn.
  destruct (countVotes env l'), (countVotes env l). simpl in *. congruence.
Qed.

(** The theorem at the sample votes, reversed. *)
Lemma countVotes_order_independent_witness :
  distinct_times Samples.votes_c1 /\
  countVotes Samples.voter (rev Samples.votes_c1)
  = countVotes Samples.voter Samples.votes_c1.
Proof.
  assert (Hd : distinct_times Samples.votes_c1).
  { intros x y Hx Hy _ Ht. simpl in Hx, Hy.
    destruct Hx as [<-|[<-|[<-|[]]]]; destruct Hy as [<-|[<-|[<-|[]]]];
      try reflexivity; discriminate Ht. }
  split; [exact Hd|].
  apply (@countVotes_order_independent Samples.voter _ _ Hd).
  apply Permutation_rev.
Defined.

(** *** The counters and the signers *)

Lemma count_bound (env : Env) vals entry :
  upvotes (fold_left (count_step env) vals entry)
  + downvotes (fold_left (count_step env) vals entry)
  <= upvotes entry + downvotes entry + length vals.
Proof.
  revert entry. induction vals as [|a vals IH]; intros entry; simpl; [lia|].
  specialize (IH (count_step env entry a)). simpl in IH.
  destruct (vote (decodedData a) =? 1)%Z, (vote (decodedData a) =? -1)%Z;
    lia.
Qed.

(** X3. The two counters of a comment never add up to more than the number
    of distinct case-folded signers of its attestations, and they add up to
    exactly that number when every attestation carries the vote 1 or -1. *)
Theorem counters_and_distinct_signers (env : Env) (l : list Attestation) :
  upvotes (countVotes env l) + downvotes (countVotes env l)
    <= distinct_signers attester l /\
  (Forall is_vote l ->
   upvotes (countVotes env l) + downvotes (countVotes env l)
     = distinct_signers attester l).
Proof.
  split; [|apply countVotes_total].
  unfold countVotes.
  pose proof (count_bound env (obj_values (userVotes l))
                {| upvotes := 0; downvotes := 0; userVote := None |}) as H.
  simpl in H. unfold obj_values in H. rewrite length_map in H.
  rewrite <- (length_map fst) in H. fold (obj_keys (userVotes l)) in H.
  rewrite userVotes_keys, Set_of_length in H. exact H.
Qed.

(** X4. The resolved object lists the case-folded signers in the order of
    their first record, each once; the record it holds for a signer is one
    of the input, and it is a record of that signer. *)
Theorem resolved_signers_in_order_of_appearance (l : list Attestation) :
  obj_keys (userVotes l) = Set_of (map key_of l) /\
  NoDup (obj_keys (userVotes l)) /\
  (forall k v, In (k, v) (userVotes l) -> In v l /\ key_of v = k).
Proof.
  split; [apply userVotes_keys|]. split; [apply userVotes_NoDup|].
  intros k v H. split.
  - now apply (userVotes_In l k).
  - symmetry. now apply (userVotes_keyed l).
Qed.

(** *** Loads *)

Section Loads.
Variable env : Env.
Variable svc : Service Attestation VoteData.

Abbreviation W := (World VoteData HookState).

(** The loop calls the service for the requested comments only, and only
    to fetch. *)
Lemma forComments_fetches schemaId ids vm (w : W) :
  exists evs,
    io (snd (forComments env svc schemaId ids vm w)) = io w ++ evs /\
    Forall (is_fetch_of schemaId ids) evs.
Proof.
  revert vm w. induction ids as [|c ids IH]; intros vm w; simpl.
  - exists []. split; [now rewrite app_nil_r | constructor].
  - assert (Hmono : forall ev, is_fetch_of schemaId ids ev ->
                               is_fetch_of schemaId (c :: ids) ev).
    { intros ev (c' & Hin & Hev). exists c'. split; [now right | exact Hev]. }
    unfold bind, getAttestations, answer.
    destruct (svc_getAttestations svc (io w) schemaId c) as [e|l]; simpl.
    + eexists. split; [reflexivity|]. constructor; [|constructor].
      exists c. split; [now left | reflexivity].
    + match goal with |- context [forComments _ _ _ _ ?v ?x] =>
        destruct (IH v x) as (evs & Hio & Hall) end.
      simpl in Hio. rewrite <- app_assoc in Hio.
      eexists. split; [exact Hio|]. constructor.
      * exists c. split; [now left | reflexivity].
      * eapply Forall_impl; [exact Hmono | exact Hall].
Qed.

(** X5. [getVotesForComments] never rejects and never shows a toast; the
    only calls it makes are fetches of the attestations of the requested
    comments, under the identifiers as they were given; and once the schema
    identifier is there it always ends with [loading] false. *)
Theorem getVotesForComments_is_safe (ids : list string) (w : W) :
  let w' := snd (getVotesForComments env svc ids w) in
  (exists voteMap,
      fst (getVotesForComments env svc ids w) = Returned voteMap) /\
  toasts w' = toasts w /\
  (exists evs,
      io w' = io w ++ evs /\
      Forall (is_fetch_of (str_of (VOTE_SCHEMA_ID env)) ids) evs) /\
  (truthy_opt (VOTE_SCHEMA_ID env) = true -> loading (hook w') = false) /\
  (truthy_opt (VOTE_SCHEMA_ID env) = false -> hook w' = hook w).
Proof.
  destruct (truthy_opt (VOTE_SCHEMA_ID env)) eqn:Hs.
  - rewrite getVotesForComments_run by exact Hs.
    pose proof (forComments_fetches (str_of (VOTE_SCHEMA_ID env)) ids []
                  (loading_world w)) as (evs & Hio & Hall).
    pose proof (@forComments_frame env svc (str_of (VOTE_SCHEMA_ID env)) ids
                  [] (loading_world w)) as (_ & _ & Ht).
    destruct (forComments env svc (str_of (VOTE_SCHEMA_ID env)) ids []
                (loading_world w)) as [[vm|e] w2]; simpl in *.
    + repeat split; eauto. discriminate.
    + repeat split; eauto. discriminate.
  - rewrite getVotesForComments_unconfigured by exact Hs. simpl.
    repeat split; eauto.
    + exists []. split; [now rewrite app_nil_r | constructor].
    + discriminate.
Qed.



End Loads.


(** *** Votes *)

(** X7. [voteOnComment] never changes the state of the hook and always
    shows exactly one toast. A refused vote reaches the service not at all;
    an accepted one makes exactly one call, the creation of an attestation
    under the comment identifier that carries this identifier and the vote
    1 for an upvote, -1 for a downvote, and the toast tells whether that call
    succeeded. *)
Theorem voteOnComment_one_call_one_toast
        (env : Env) (svc : Service Attestation VoteData)
        (commentId : string) (isUpvote : bool)
        (w : World VoteData HookState) :
  let w' := snd (voteOnComment env svc commentId isUpvote w) in
  hook w' = hook w /\
  (exists t, toasts w' = toasts w ++ [t]) /\
  (if vote_refused env commentId then io w' = io w
   else exists ok t,
       io w' =
         io w ++
         [{| ev_call :=
               CallCreateAttestation (str_of (VOTE_SCHEMA_ID env)) commentId
                 {| CommentVotes.commentId := commentId;
                    vote := if isUpvote then 1%Z else (-1)%Z |};
             ev_ok := ok |}] /\
       toasts w' = toasts w ++ [t] /\
       status t = (if ok then "success" else "error")).
Proof.
  destruct (vote_refused env commentId) eqn:G.
  - rewrite voteOnComment_refused by exact G. simpl.
    repeat split. eexists. reflexivity.
  - destruct (svc_createAttestation svc (io w) (str_of (VOTE_SCHEMA_ID env))
                commentId
                {| CommentVotes.commentId := commentId;
                   vote := if isUpvote then 1%Z else (-1)%Z |})
      as [e|[]] eqn:Hc.
    + rewrite (@voteOnComment_write_failure env svc commentId isUpvote w e G
                 Hc). simpl.
      split; [reflexivity|]. split; [eexists; reflexivity|].
      exists false. eexists. repeat split.
    + rewrite (@voteOnComment_written env svc commentId isUpvote w G Hc).
      simpl. split; [reflexivity|]. split; [eexists; reflexivity|].
      exists true. eexists. repeat split.
Qed.

(** The theorem at the sample votes: two signers, two counted votes. *)
Lemma counters_and_distinct_signers_witness :
  Forall is_vote Samples.votes_c1 /\
  upvotes (countVotes Samples.voter Samples.votes_c1)
  + downvotes (countVotes Samples.voter Samples.votes_c1)
  = distinct_signers attester Samples.votes_c1.
Proof.
  assert (H : Forall is_vote Samples.votes_c1).
  { constructor; [left; reflexivity|].
    constructor; [left; reflexivity|].
    constructor; [right; reflexivity | constructor]. }
  split; [exact H|].
  exact (proj2 (counters_and_distinct_signers Samples.voter Samples.votes_c1)
           H).
Defined.

End CommentVotesMore.

(** ** Site ratings *)

Module SiteRatingsMore.
Import SiteRatings SiteRatingsFacts.

Section Loads.
Variable env : Env.
Variable svc : Service Attestation RatingData.

Abbreviation W := (World RatingData HookState).

Lemma countLatest_reads schemaId key users s u (w : W) :
  exists evs,
    io (snd (countLatest svc schemaId key users s u w)) = io w ++ evs /\
    Forall (is_read_of schemaId key) evs.
Proof.
  revert s u w. induction users as [|x users IH]; intros s u w; simpl.
  - exists []. split; [now rewrite app_nil_r | constructor].
  - unfold bind, getLatestAttestationForUser, answer.
    assert (Hread : forall ok,
               is_read_of schemaId key
                 {| ev_call := CallGetLatestAttestationForUser schemaId key x;
                    ev_ok := ok |}) by (intros ok; split; reflexivity).
    destruct (svc_getLatestAttestationForUser svc (io w) schemaId key x)
      as [e|o]; simpl.
    + eexists. split; [reflexivity|]. constructor; [apply Hread|constructor].
    + assert (G : forall s' u',
                 exists evs,
                   io (snd (countLatest svc schemaId key users s' u'
                              (record_call
                                 (CallGetLatestAttestationForUser
                                    schemaId key x) true w)))
                   = io w ++ evs /\ Forall (is_read_of schemaId key) evs).
      { intros s' u'.
        destruct (IH s' u'
                    (record_call
                       (CallGetLatestAttestationForUser schemaId key x)
                       true w)) as (evs & Hio & Hall).
        simpl in Hio. rewrite <- app_assoc in Hio.
        eexists. split; [exact Hio|]. constructor; [apply Hread|exact Hall]. }
      destruct o as [a|]; [destruct (isSafe (decodedData a))|]; apply G.
Qed.

Lemma tally_phase_reads schemaId url (w : W) :
  exists evs,
    io (snd (tally_phase svc schemaId url w)) = io w ++ evs /\
    Forall (is_read_of schemaId (toLowerCase url)) evs.
Proof.
  unfold tally_phase, bind, getAttestations, answer.
  assert (Hread : forall ok,
             is_read_of schemaId (toLowerCase url)
               {| ev_call := CallGetAttestations schemaId (toLowerCase url);
                  ev_ok := ok |}) by (intros ok; split; reflexivity).
  destruct (svc_getAttestations svc (io w) schemaId (toLowerCase url))
    as [e|l]; simpl.
  - eexists. split; [reflexivity|]. constructor; [apply Hread|constructor].
  - match goal with |- context [countLatest _ _ _ ?us ?a ?b ?x] =>
      destruct (countLatest_reads schemaId (toLowerCase url) us a b x)
        as (evs & Hio & Hall) end.
    simpl in Hio. rewrite <- app_assoc in Hio.
    eexists. split; [exact Hio|]. constructor; [apply Hread|exact Hall].
Qed.

(** What the [try] block of [loadSiteRatings] may change. *)
Lemma loadSiteRatings_body_frame schemaId url (w : W) :
  let w' := snd (loadSiteRatings_body env svc schemaId url w) in
  toasts w' = toasts w /\ console w' = console w /\
  currentUrl (hook w') = currentUrl (hook w) /\
  isValidUrl (hook w') = isValidUrl (hook w) /\
  loading (hook w') = loading (hook w) /\
  (siteRatings (hook w') = siteRatings (hook w) \/
   exists counts, siteRatings (hook w') = Some (tally_of counts)) /\
  exists evs,
    io w' = io w ++ evs /\
    Forall (is_read_of schemaId (toLowerCase url)) evs.
Proof.
  rewrite loadSiteRatings_body_phases.
  pose proof (tally_phase_frame svc schemaId url w) as (Hh & Hc & Ht).
  pose proof (tally_phase_reads schemaId url w) as (evs & Hio & Hall).
  destruct (tally_phase svc schemaId url w) as [[counts|e] w1]; simpl in *.
  - unfold bind, setSiteRatings, set_hook. simpl.
    destruct (truthy_opt (ethAddress env)).
    + unfold getLatestAttestationForUser, answer. simpl.
      assert (Hall' : forall ok,
                 Forall (is_read_of schemaId (toLowerCase url))
                   (evs ++
                    [{| ev_call :=
                          CallGetLatestAttestationForUser schemaId
                            (toLowerCase url) (str_of (ethAddress env));
                        ev_ok := ok |}])).
      { intros ok. apply Forall_app. split; [exact Hall|].
        constructor; [split; reflexivity | constructor]. }
      destruct (svc_getLatestAttestationForUser svc (io w1) _ _ _)
        as [e|[a|]]; simpl; rewrite Hh, Hc, Ht, Hio, <- app_assoc;
        repeat split; eauto; right; now exists counts.
    + simpl. rewrite Hh, Hc, Ht. repeat split; eauto.
      right. now exists counts.
  - rewrite Hh, Hc, Ht. repeat split; eauto.
Qed.

(** What a load may do and what it leaves alone. *)
Lemma loadSiteRatings_effects (url : string) (w : W) :
  let w' := snd (loadSiteRatings env svc url w) in
  fst (loadSiteRatings env svc url w) = Returned tt /\
  toasts w' = toasts w /\
  currentUrl (hook w') = currentUrl (hook w) /\
  isValidUrl (hook w') = isValidUrl (hook w) /\
  (exists evs,
      io w' = io w ++ evs /\
      Forall (is_read_of (str_of (SAFETY_RATING_SCHEMA_ID env))
                (toLowerCase url)) evs) /\
  (if truthy_opt (SAFETY_RATING_SCHEMA_ID env) && truthy url
   then loading (hook w') = false
   else w' = w).
Proof.
  split; [apply loadSiteRatings_returns|].
  destruct (truthy_opt (SAFETY_RATING_SCHEMA_ID env)) eqn:Hs;
    [destruct (truthy url) eqn:Hu|].
  - rewrite loadSiteRatings_run by assumption.
    pose proof (loadSiteRatings_body_frame
                  (str_of (SAFETY_RATING_SCHEMA_ID env)) url
                  (loading_world w))
      as (Ht & _ & Hcu & Hv & _ & _ & evs & Hio & Hall).
    destruct (loadSiteRatings_body env svc _ url (loading_world w))
      as [[[]|e] w2]; simpl in *; repeat split; eauto.
  - rewrite loadSiteRatings_unconfigured by now right.
    simpl. repeat split.
    exists []. split; [now rewrite app_nil_r | constructor].
  - rewrite loadSiteRatings_unconfigured by now left.
    simpl. repeat split.
    exists []. split; [now rewrite app_nil_r | constructor].
Qed.

(** X8. [loadSiteRatings] never rejects, never shows a toast and never
    touches [currentUrl] or [isValidUrl]. Every call it makes is a read of
    the records kept under the lower-cased url: it never writes. Without a
    schema identifier or a url it changes nothing at all; otherwise it
    always ends with [loading] false. *)
Theorem loadSiteRatings_is_safe (url : string) (w : W) :
  let w' := snd (loadSiteRatings env svc url w) in
  fst (loadSiteRatings env svc url w) = Returned tt /\
  toasts w' = toasts w /\
  currentUrl (hook w') = currentUrl (hook w) /\
  isValidUrl (hook w') = isValidUrl (hook w) /\
  (exists evs,
      io w' = io w ++ evs /\
      Forall (is_read_of (str_of (SAFETY_RATING_SCHEMA_ID env))
                (toLowerCase url)) evs) /\
  (if truthy_opt (SAFETY_RATING_SCHEMA_ID env) && truthy url
   then loading (hook w') = false
   else w' = w).
Proof. exact (loadSiteRatings_effects url w). Qed.

(** A load keeps the published tally or publishes a complete one. *)
Lemma loadSiteRatings_publishes (url : string) (w : W) :
  let w' := snd (loadSiteRatings env svc url w) in
  siteRatings (hook w') = siteRatings (hook w) \/
  exists counts, siteRatings (hook w') = Some (tally_of counts).
Proof.
  destruct (truthy_opt (SAFETY_RATING_SCHEMA_ID env)) eqn:Hs;
    [destruct (truthy url) eqn:Hu|].
  - rewrite loadSiteRatings_run by assumption.
    pose proof (loadSiteRatings_body_frame
                  (str_of (SAFETY_RATING_SCHEMA_ID env)) url
                  (loading_world w)) as (_ & _ & _ & _ & _ & Hp & _).
    destruct (loadSiteRatings_body env svc _ url (loading_world w))
      as [[[]|e] w2]; simpl in *; exact Hp.
  - rewrite loadSiteRatings_unconfigured by now right. now left.
  - rewrite loadSiteRatings_unconfigured by now left. now left.
Qed.
End Loads.

(** *** Ratings *)

Section Ratings.
Variable env : Env.
Variable svc : Service Attestation RatingData.

Abbreviation W := (World RatingData HookState).

(** The world in which [rateSite] reloads the ratings after its write. *)
Lemma rateSite_written (safe : bool) (w : W) :
  rate_refused env (hook w) = false ->
  svc_createAttestation svc (io w) (str_of (SAFETY_RATING_SCHEMA_ID env))
    (currentUrl (hook w)) {| url := currentUrl (hook w); isSafe := safe |}
  = inr tt ->
  let w2 :=
    snd (loadSiteRatings env svc (currentUrl (hook w))
           (record_call (rate_call env (hook w) safe) true
              (loading_world w))) in
  rateSite env svc safe w =
  (Returned tt,
   {| hook := {| currentUrl := currentUrl (hook w2);
                 isValidUrl := isValidUrl (hook w2);
                 siteRatings := siteRatings (hook w2);
                 userRating := Some safe;
                 loading := false |};
      console := console w2;
      toasts := toasts w2 ++ [rate_success_toast safe];
      io := io w2 |}).
Proof.
  unfold rate_refused, rateSite. intros Hr Hc.
  unfold bind at 1. unfold get_hook at 1. rewrite Hr.
  unfold bind at 1. unfold setLoading at 1. unfold set_hook at 1.
  unfold try_finally, try_catch.
  unfold bind at 1. unfold createAttestation, answer. simpl.
  rewrite Hc. fold (loading_world w). unfold rate_call.
  unfold bind at 1.
  pose proof (loadSiteRatings_returns env svc (currentUrl (hook w))
                (record_call
                   (CallCreateAttestation
                      (str_of (SAFETY_RATING_SCHEMA_ID env))
                      (currentUrl (hook w))
                      {| url := currentUrl (hook w); isSafe := safe |})
                   true (loading_world w))) as Hret.
  destruct (loadSiteRatings env svc (currentUrl (hook w)) _) as [r w2].
  simpl in Hret. subst r. reflexivity.
Qed.

(** X9. The published tally is consistent at all times: if its total is the
    sum of its two counts before a load or a rating, or if there is none,
    the same holds afterwards, whatever the service answers. *)
Theorem tally_stays_consistent (url : string) (safe : bool) (w : W) :
  consistent (hook w) ->
  consistent (hook (snd (loadSiteRatings env svc url w))) /\
  consistent (hook (snd (rateSite env svc safe w))).
Proof.
  intros Hw.
  assert (Hload : forall u (w0 : W),
             siteRatings (hook w0) = siteRatings (hook w) ->
             consistent (hook (snd (loadSiteRatings env svc u w0)))).
  { intros u w0 H0. unfold consistent.
    destruct (loadSiteRatings_publishes env svc u w0) as [H|[counts H]].
    - simpl in H. rewrite H, H0. exact Hw.
    - simpl in H. rewrite H. reflexivity. }
  split; [now apply Hload|].
  destruct (rate_refused env (hook w)) eqn:Hr.
  - now rewrite rateSite_refused.
  - destruct (svc_createAttestation svc (io w)
                (str_of (SAFETY_RATING_SCHEMA_ID env)) (currentUrl (hook w))
                {| url := currentUrl (hook w); isSafe := safe |})
      as [e|[]] eqn:Hc.
    + rewrite (@rateSite_write_failure env svc safe w e Hr Hc). exact Hw.
    + rewrite (rateSite_written safe w Hr Hc).
      specialize (Hload (currentUrl (hook w))
                    (record_call (rate_call env (hook w) safe) true
                       (loading_world w)) eq_refl).
      exact Hload.
Qed.

(** X10. [rateSite] completes normally exactly when it was not refused and
    the write succeeded; what the reload does then, even a failure, does
    not matter. In that case the own rating is the submitted one, whatever
    the reload found, exactly one toast was shown, the success, [loading]
    is false, and the write came first, under the url as it is held in
    [currentUrl]. *)
Theorem rateSite_completes_iff_written (safe : bool) (w : W) :
  let w' := snd (rateSite env svc safe w) in
  let written :=
    svc_createAttestation svc (io w) (str_of (SAFETY_RATING_SCHEMA_ID env))
      (currentUrl (hook w)) {| url := currentUrl (hook w); isSafe := safe |}
    = inr tt in
  (fst (rateSite env svc safe w) = Returned tt <->
   rate_refused env (hook w) = false /\ written) /\
  (rate_refused env (hook w) = false -> written ->
   userRating (hook w') = Some safe /\
   loading (hook w') = false /\
   toasts w' = toasts w ++ [rate_success_toast safe] /\
   exists evs,
     io w' =
     io w ++
     {| ev_call :=
          CallCreateAttestation (str_of (SAFETY_RATING_SCHEMA_ID env))
            (currentUrl (hook w))
            {| url := currentUrl (hook w); isSafe := safe |};
        ev_ok := true |} :: evs).
Proof.
  split.
  - destruct (rate_refused env (hook w)) eqn:Hr.
    + rewrite rateSite_refused by exact Hr. simpl.
      split; [discriminate | intros [H _]; discriminate].
    + destruct (svc_createAttestation svc (io w)
                  (str_of (SAFETY_RATING_SCHEMA_ID env)) (currentUrl (hook w))
                  {| url := currentUrl (hook w); isSafe := safe |})
        as [e|[]] eqn:Hc.
      * rewrite (@rateSite_write_failure env svc safe w e Hr Hc). simpl.
        split; [discriminate | intros [_ H]; discriminate].
      * rewrite (rateSite_written safe w Hr Hc). simpl. tauto.
  - intros Hr Hc. rewrite (rateSite_written safe w Hr Hc). simpl.
    pose proof (loadSiteRatings_effects env svc (currentUrl (hook w))
                  (record_call (rate_call env (hook w) safe) true
                     (loading_world w)))
      as (_ & Ht & _ & _ & (evs & Hio & _) & _).
    simpl in Ht, Hio. rewrite Ht, Hio, <- app_assoc.
    repeat split. now exists evs.
Qed.

(** *** A completed load *)

Lemma counted_filter latest users s u :
  counted latest users s u =
  (s + length (filter (rated_safe latest) users),
   u + length (filter (rated_unsafe latest) users)).
Proof.
  revert s u. induction users as [|x users IH]; intros s u; simpl.
  - f_equal; lia.
  - unfold rated_safe at 1, rated_unsafe at 1.
    destruct (latest x) as [a|]; [destruct (isSafe (decodedData a))|];
      rewrite IH; simpl; f_equal; lia.
Qed.

Lemma countLatest_answers_trace schemaId key latest users s u (w : W) :
  answers svc schemaId key latest ->
  io (snd (countLatest svc schemaId key users s u w)) =
  io w ++ map (looked_up schemaId key) users.
Proof.
  intros Ha. revert s u w.
  induction users as [|x users IH]; intros s u w; simpl.
  - now rewrite app_nil_r.
  - unfold bind, getLatestAttestationForUser, answer. rewrite Ha.
    destruct (latest x) as [a|]; simpl;
      [destruct (isSafe (decodedData a))|];
      rewrite IH; simpl; now rewrite <- app_assoc.
Qed.

(** X11. A load whose calls all succeed fetches the records once, looks up
    the latest record of every distinct signer string in the order of first
    appearance, and then that of the viewer, if there is one, always under
    the lower-cased url. It publishes as [safeCount] the number of those
    signers whose latest record rates the site safe and as [unsafeCount] the
    number of those whose latest record rates it unsafe; a signer without a
    latest record counts for neither. *)
Theorem loadSiteRatings_completed_tally
        (url : string) (w : W) l latest :
  truthy_opt (SAFETY_RATING_SCHEMA_ID env) = true -> truthy url = true ->
  (forall tr, svc_getAttestations svc tr
                (str_of (SAFETY_RATING_SCHEMA_ID env)) (toLowerCase url)
              = inr l) ->
  answers svc (str_of (SAFETY_RATING_SCHEMA_ID env)) (toLowerCase url) latest ->
  let w' := snd (loadSiteRatings env svc url w) in
  let users := Set_of (map signer l) in
  let schemaId := str_of (SAFETY_RATING_SCHEMA_ID env) in
  siteRatings (hook w') =
    Some {| safeCount := length (filter (rated_safe latest) users);
            unsafeCount := length (filter (rated_unsafe latest) users);
            totalRatings :=
              length (filter (rated_safe latest) users)
              + length (filter (rated_unsafe latest) users) |} /\
  io w' =
    io w ++
    {| ev_call := CallGetAttestations schemaId (toLowerCase url);
       ev_ok := true |}
    :: map (looked_up schemaId (toLowerCase url)) users
    ++ (if truthy_opt (ethAddress env)
        then [looked_up schemaId (toLowerCase url) (str_of (ethAddress env))]
        else []).
Proof.
  intros Hs Hu Hget Hans. split.
  - destruct (@loadSiteRatings_completed env svc url w l latest Hs Hu Hget
                Hans) as (H & _).
    simpl in H. rewrite H, counted_filter. reflexivity.
  - rewrite loadSiteRatings_run by assumption.
    unfold loadSiteRatings_body, bind at 1, getAttestations, answer.
    rewrite Hget. unfold bind at 1.
    pose proof (@countLatest_answers_trace
                  (str_of (SAFETY_RATING_SCHEMA_ID env)) (toLowerCase url)
                  latest (Set_of (map signer l)) 0 0
                  (record_call
                     (CallGetAttestations
                        (str_of (SAFETY_RATING_SCHEMA_ID env))
                        (toLowerCase url)) true (loading_world w)) Hans)
      as Hio.
    pose proof (@countLatest_answers svc
                  (str_of (SAFETY_RATING_SCHEMA_ID env)) (toLowerCase url)
                  latest (Set_of (map signer l)) 0 0
                  (record_call
                     (CallGetAttestations
                        (str_of (SAFETY_RATING_SCHEMA_ID env))
                        (toLowerCase url)) true (loading_world w)) Hans)
      as Hr.
    destruct (countLatest svc _ _ _ 0 0 _) as [r w1]. simpl in Hio, Hr.
    subst r. unfold bind, setSiteRatings, set_hook. simpl.
    destruct (truthy_opt (ethAddress env)).
    + unfold getLatestAttestationForUser, answer. simpl. rewrite Hans.
      destruct (latest (str_of (ethAddress env))); simpl;
        rewrite Hio, <- !app_assoc; reflexivity.
    + simpl. rewrite Hio, <- !app_assoc. simpl. now rewrite app_nil_r.
Qed.
End Ratings.

(** The theorem at the three sample signers, viewed by the first one. *)
Lemma loadSiteRatings_completed_tally_witness :
  let w' :=
    snd (loadSiteRatings Samples.rater
           (Samples.rating_service Samples.ratings_three Samples.always_up)
           "Example.com" Samples.fresh_world) in
  siteRatings (hook w') =
    Some {| safeCount := 1; unsafeCount := 2; totalRatings := 3 |} /\
  length (io w') = 5.
Proof.
  assert (Hanswers : answers
                       (Samples.rating_service Samples.ratings_three
                          Samples.always_up) "0x1" "example.com"
                       (fun user =>
                          latestRecordForSigner signer attestTimestamp
                            (toLowerCase user) Samples.ratings_three))
    by (intros tr user; reflexivity).
  destruct (@loadSiteRatings_completed_tally Samples.rater
              (Samples.rating_service Samples.ratings_three Samples.always_up)
              "Example.com" Samples.fresh_world Samples.ratings_three _
              eq_refl eq_refl (fun tr => eq_refl) Hanswers) as [Ht Hio].
  split.
  - rewrite Ht. reflexivity.
  - rewrite Hio. reflexivity.
Defined.

(** The invariant at the sample provider. *)
Lemma tally_stays_consistent_witness :
  consistent (hook Samples.ready_world) /\
  consistent
    (hook (snd (rateSite Samples.rater
                  (Samples.rating_service Samples.ratings_three
                     Samples.always_up)
                  false Samples.ready_world))).
Proof.
  assert (H : consistent (hook Samples.ready_world)) by reflexivity.
  split; [exact H|].
  exact (proj2 (@tally_stays_consistent Samples.rater
                  (Samples.rating_service Samples.ratings_three
                     Samples.always_up)
                  "example.com" false Samples.ready_world H)).
Defined.

(** *** Mounting the provider *)

Section Mount.
Variable env : Env.
Variable svc : Service Attestation RatingData.
Variable getActiveTabUrl : Error + option string.
Variable hostname : string -> Error + string.
Variable isValidFlagUrl : string -> bool.

Abbreviation W := (World RatingData HookState).
Abbreviation mount := (initialize env svc getActiveTabUrl hostname isValidFlagUrl).

(** The calls of [rateSite]: nothing when it refuses; otherwise one write
    under [currentUrl], and then reads under its lower-case form. *)
Lemma rateSite_calls (safe : bool) (w : W) :
  rate_refused env (hook w) = false ->
  exists ok evs,
    io (snd (rateSite env svc safe w)) =
    io w ++
    {| ev_call :=
         CallCreateAttestation (str_of (SAFETY_RATING_SCHEMA_ID env))
           (currentUrl (hook w))
           {| url := currentUrl (hook w); isSafe := safe |};
       ev_ok := ok |} :: evs /\
    Forall (is_read_of (str_of (SAFETY_RATING_SCHEMA_ID env))
              (toLowerCase (currentUrl (hook w)))) evs.
Proof.
  intros Hr.
  destruct (svc_createAttestation svc (io w)
              (str_of (SAFETY_RATING_SCHEMA_ID env)) (currentUrl (hook w))
              {| url := currentUrl (hook w); isSafe := safe |})
    as [e|[]] eqn:Hc.
  - rewrite (@rateSite_write_failure env svc safe w e Hr Hc). simpl.
    exists false, []. split; [reflexivity | constructor].
  - rewrite (@rateSite_written env svc safe w Hr Hc). simpl.
    pose proof (loadSiteRatings_effects env svc (currentUrl (hook w))
                  (record_call (rate_call env (hook w) safe) true
                     (loading_world w)))
      as (_ & _ & _ & _ & (evs & Hio & Hall) & _).
    simpl in Hio. rewrite Hio, <- app_assoc.
    exists true, evs. split; [reflexivity | exact Hall].
Qed.

(** The effect of the mount, case by case. *)
Lemma initialize_effects (w : W) :
  let w' := snd (mount w) in
  match getActiveTabUrl with
  | inl e => mount w = (Thrown e, loading_world w)
  | inr url =>
      if truthy_opt url then
        match hostname (str_of url) with
        | inl e => mount w = (Thrown e, loading_world w)
        | inr domain =>
            fst (mount w) = Returned tt /\
            currentUrl (hook w') = domain /\
            isValidUrl (hook w') = isValidFlagUrl (str_of url) /\
            toasts w' = toasts w /\
            loading (hook w') =
              negb (truthy_opt (SAFETY_RATING_SCHEMA_ID env)
                    && truthy domain)
        end
      else mount w = (Returned tt, loaded_world w)
  end.
Proof.
  destruct getActiveTabUrl as [e|url]; [reflexivity|].
  destruct (truthy_opt url) eqn:Hu.
  - destruct (hostname (str_of url)) as [e|domain] eqn:Hh.
    + unfold initialize, bind, of_result. rewrite Hu, Hh. reflexivity.
    + unfold initialize, bind, of_result, setLoading, setCurrentUrl,
        setIsValidUrl, set_hook.
      rewrite Hu, Hh.
      match goal with |- context [loadSiteRatings env svc domain ?x] =>
        pose proof (loadSiteRatings_effects env svc domain x)
          as (Hret & Ht & Hcu & Hv & _ & Hl);
        destruct (loadSiteRatings env svc domain x) as [r w2] end.
      simpl in *. repeat split; try assumption.
      destruct (truthy_opt (SAFETY_RATING_SCHEMA_ID env) && truthy domain).
      * exact Hl.
      * now rewrite Hl.
  - unfold initialize, bind, of_result. rewrite Hu. reflexivity.
Qed.

(** X12. What mounting the provider leaves behind. Without an active tab
    only [loading] becomes false. With one, [currentUrl] is the host name
    of its url and [isValidUrl] what [isValidFlagUrl] says of the url, no
    toast is shown, and [loading] ends false exactly when the schema
    identifier is configured and the host name is not empty: otherwise the
    provider stays loading. When the tab cannot be asked or its url has no
    host name to parse, the effect rejects and the provider stays
    loading. *)
Theorem initialize_outcome (w : W) :
  let w' := snd (mount w) in
  match getActiveTabUrl with
  | inl e => mount w = (Thrown e, loading_world w)
  | inr url =>
      if truthy_opt url then
        match hostname (str_of url) with
        | inl e => mount w = (Thrown e, loading_world w)
        | inr domain =>
            fst (mount w) = Returned tt /\
            currentUrl (hook w') = domain /\
            isValidUrl (hook w') = isValidFlagUrl (str_of url) /\
            toasts w' = toasts w /\
            loading (hook w') =
              negb (truthy_opt (SAFETY_RATING_SCHEMA_ID env)
                    && truthy domain)
        end
      else mount w = (Returned tt, loaded_world w)
  end.
Proof. exact (initialize_effects w). Qed.

(** X13. [rateSite] after the mount: when the rating is not refused, the
    first call is the write, under the host name of the tab exactly as
    [URL] gave it and carrying it as its [url]; every later call is a read
    under the lower-case form of that host name; and there is no second
    write. *)
Theorem rateSite_after_mount (safe : bool) (w : W) url domain :
  getActiveTabUrl = inr (Some url) -> truthy url = true ->
  hostname url = inr domain ->
  let w1 := snd (mount w) in
  rate_refused env (hook w1) = false ->
  exists ok evs,
    io (snd (rateSite env svc safe w1)) =
    io w1 ++
    {| ev_call :=
         CallCreateAttestation (str_of (SAFETY_RATING_SCHEMA_ID env)) domain
           {| SiteRatings.url := domain; isSafe := safe |};
       ev_ok := ok |} :: evs /\
    Forall (is_read_of (str_of (SAFETY_RATING_SCHEMA_ID env))
              (toLowerCase domain)) evs.
Proof.
  intros Hg Hu Hh w1 Hr.
  assert (Hcu : currentUrl (hook w1) = domain).
  { pose proof (initialize_effects w) as H. subst w1.
    destruct getActiveTabUrl as [e|u]; [discriminate|].
    injection Hg as ->. simpl in H. rewrite Hu, Hh in H. apply H. }
  destruct (rateSite_calls safe w1 Hr) as (ok & evs & Hio & Hall).
  rewrite Hcu in Hio, Hall. now exists ok, evs.
Qed.
End Mount.

(** The theorem for a rater whose tab shows the sample site. *)
Lemma rateSite_after_mount_witness :
  let w1 :=
    snd (initialize Samples.rater
           (Samples.rating_service Samples.ratings_three Samples.always_up)
           (inr (Some "https://example.com/page"))
           (fun _ => inr "example.com") (fun _ => true)
           Samples.fresh_world) in
  rate_refused Samples.rater (hook w1) = false /\
  exists ok evs,
    io (snd (rateSite Samples.rater
               (Samples.rating_service Samples.ratings_three
                  Samples.always_up) true w1)) =
    io w1 ++
    {| ev_call :=
         CallCreateAttestation "0x1" "example.com"
           {| url := "example.com"; isSafe := true |};
       ev_ok := ok |} :: evs /\
    Forall (is_read_of "0x1" "example.com") evs.
Proof.
  split; [reflexivity|].
  exact (@rateSite_after_mount Samples.rater
           (Samples.rating_service Samples.ratings_three Samples.always_up)
           (inr (Some "https://example.com/page"))
           (fun _ => inr "example.com") (fun _ => true)
           true Samples.fresh_world "https://example.com/page" "example.com"
           eq_refl eq_refl eq_refl eq_refl).
Defined.

(** The theorem for a rating whose write succeeds and whose reload meets a
    service that is down: the call completes, the own rating is the
    submitted one and the success is shown. *)
Lemma rateSite_completes_iff_written_witness :
  let w' :=
    snd (rateSite Samples.rater
           (Samples.rating_service Samples.ratings_three (Samples.down_at 1))
           false Samples.ready_world) in
  fst (rateSite Samples.rater
         (Samples.rating_service Samples.ratings_three (Samples.down_at 1))
         false Samples.ready_world) = Returned tt /\
  userRating (hook w') = Some false /\
  toasts w' = [rate_success_toast false].
Proof.
  pose proof (@rateSite_completes_iff_written Samples.rater
                (Samples.rating_service Samples.ratings_three
                   (Samples.down_at 1))
                false Samples.ready_world) as [Hiff Hdone].
  split; [apply Hiff; split; reflexivity|].
  destruct (Hdone eq_refl eq_refl) as (Hown & _ & Htoasts & _).
  split; [exact Hown | exact Htoasts].
Defined.

(** The theorem for a provider that is mounted without its schema
    identifier: it stays loading. *)
Lemma initialize_outcome_witness :
  loading
    (hook (snd (initialize Samples.unconfigured_rater
                  (Samples.rating_service Samples.ratings_three
                     Samples.always_up)
                  (inr (Some "https://example.com/page"))
                  (fun _ => inr "example.com") (fun _ => true)
                  Samples.fresh_world))) = true.
Proof.
  pose proof (@initialize_outcome Samples.unconfigured_rater
                (Samples.rating_service Samples.ratings_three
                   Samples.always_up)
                (inr (Some "https://example.com/page"))
                (fun _ => inr "example.com") (fun _ => true)
                Samples.fresh_world) as H.
  simpl in H. apply H.
Defined.

End SiteRatingsMore.
